(** * A shallow embedding of the Pokemon-playing agent

    The development follows the three Python modules of the program:

    - [ollama_client.py]: the model backend adapter ([chat_via_client]) and
      the action executor ([call_tool_from_response]);
    - [agent/agent.py]: the agent session ([SimpleAgent]) with its history,
      the text fallback parser, the summarizer and the run loop;
    - [main.py]: the process entry point.

    The emulator ([agent/emulator.py]) and the Ollama library are outside
    the modelled sources: they are collaborators whose behaviour is a
    parameter of the development (record [World]).  Every call to a
    collaborator is logged in a trace kept beside the agent state, so that
    statements about "what was invoked, and how often" can be made.

    A Python [str] is modelled by a [string], a sequence of characters:
    the 128 ASCII characters are themselves, and the other values of
    [ascii] stand for characters beyond ASCII.  Python's [str.upper] knows
    the case of every Unicode character; the upper case of the characters
    beyond ASCII is a parameter of the development ([upper_other]), and it
    may well be made of ASCII letters.  (The texts of the program that are
    written out below show their few characters beyond ASCII in UTF-8; they
    are never upper-cased.)  A value that is a [str] or [None] is a
    [pytext].  Logging, printing and [time.sleep] have no effect on
    the modelled state and are left out.  The sampling temperature (a
    float) is left out of the backend request. *)

From Stdlib Require Import String Ascii List ZArith Lia Bool Arith.
From Stdlib Require Import DecimalString.
Import ListNotations.
Open Scope string_scope.
Open Scope Z_scope.

Set Implicit Arguments.

(** ** Python values and exceptions *)

#[local] Set Warnings "-register-all".

(** JSON-like values: tool arguments, tool results and plain mappings. *)
Inductive value : Type :=
| VNone
| VBool (b : bool)
| VInt (z : Z)
| VStr (s : string)
| VList (l : list value)
| VDict (d : list (string * value)).

(** A value that is a [str] or [None]: the content of a reply, of a turn
    and of a message sent to the backend. *)
Inductive pytext : Type :=
| PStr (s : string)
| PNone.

Coercion PStr : string >-> pytext.

(** [str(t)], as an f-string formats it. *)
Definition format_text (t : pytext) : string :=
  match t with
  | PStr s => s
  | PNone => "None"
  end.

(** Exceptions.  [Exception cls msg] is an instance of a subclass [cls] of
    Python's [Exception] with [str(e) = msg]; [KeyboardInterrupt] derives from
    [BaseException] only, so [except Exception] does not catch it. *)
Inductive exn : Type :=
| Exception (cls msg : string)
| KeyboardInterrupt.

Definition str_exn (e : exn) : string :=
  match e with
  | Exception _ msg => msg
  | KeyboardInterrupt => ""
  end.

(** The result of a call to a collaborator. *)
Inductive result (A : Type) : Type :=
| Ok (a : A)
| Err (e : exn).
Arguments Ok {A} a.
Arguments Err {A} e.

Definition is_ok {A} (r : result A) : bool :=
  match r with Ok _ => true | Err _ => false end.

(** ** Strings *)

Module Str.

(** [c.upper()] on one ASCII character. *)
Definition upper_ascii (c : ascii) : ascii :=
  let n := nat_of_ascii c in
  if ((97 <=? n) && (n <=? 122))%nat then ascii_of_nat (n - 32) else c.

(** The ASCII case folding of a text: the letters a to z become capitals,
    every other character is kept.  It is what [s.upper()] gives on an
    ASCII text; [s.upper()] itself is [upper] of the agent, below. *)
Fixpoint upper (s : string) : string :=
  match s with
  | EmptyString => EmptyString
  | String c t => String (upper_ascii c) (upper t)
  end.

(** [s.startswith(p)]. *)
Fixpoint startswith (p s : string) : bool :=
  match p, s with
  | EmptyString, _ => true
  | String a p', String b s' => Ascii.eqb a b && startswith p' s'
  | String _ _, EmptyString => false
  end.

(** [needle in hay] on strings: substring test. *)
Fixpoint contains (needle hay : string) : bool :=
  startswith needle hay ||
  match hay with
  | EmptyString => false
  | String _ t => contains needle t
  end.

(** [str(n)] for an integer. *)
Definition of_Z (z : Z) : string := NilZero.string_of_int (Z.to_int z).

End Str.

(** Lookup in an association list: the first binding of [k]
    ([d.get(k)] on a Python dict). *)
Fixpoint assoc {A} (k : string) (d : list (string * A)) : option A :=
  match d with
  | [] => None
  | (k', v) :: d' => if String.eqb k k' then Some v else assoc k d'
  end.

(** ** The data model *)

(** One typed part of a turn's content:
    [{"type": "text", "text": ...}] or
    [{"type": "image", "source": {"type": ..., "media_type": ..., "data": ...}}]. *)
Inductive Part : Type :=
| TextPart (text : string)
| ImagePart (source_type media_type data : string).

(** The content payload of a turn: one text (the content of a reply, which
    may be [None]) or a list of parts. *)
Inductive Content : Type :=
| Text (s : pytext)
| Parts (ps : list Part).

(** An entry of [message_history]. *)
Record Turn : Type := mkTurn {
  turn_role : string;
  turn_content : Content
}.

(** A flattened, role-tagged text message as sent to the backend. *)
Record OllamaMessage : Type := mkMsg {
  msg_role : string;
  msg_content : pytext
}.

(** A declared tool: an entry of [AVAILABLE_TOOLS]. *)
Record ToolDecl : Type := mkTool {
  decl_name : string;
  decl_description : string;
  decl_input_schema : value
}.

(** The typed reply of the Ollama library: [ChatResponse], [Message],
    [ToolCall] and its [Function].  These objects give access to their
    fields both as attributes and as keys.  An optional field that was not
    set is not among the keys ([None] here); the [content] of a message
    may also be set to Python's [None] ([Some PNone]). *)
Record ToolFunction : Type := mkFunction {
  fn_name : string;
  fn_arguments : list (string * value)
}.

Record ToolCall : Type := mkToolCall {
  tc_function : ToolFunction
}.

Record Message : Type := mkMessage {
  message_role : string;
  message_content : option pytext;
  message_tool_calls : option (list ToolCall)
}.

Record ChatResponse : Type := mkResponse {
  response_message : Message
}.

(** What [chat_via_client] hands to its caller: the library's reply object,
    or the plain mapping [{"message": {"content": text}}] that its [except]
    branch builds. *)
Inductive Reply : Type :=
| Obj (r : ChatResponse)
| Mapping (text : string).

(** An entry of the list returned by [call_tool_from_response]:
    [{"tool": ..., "args": ..., "result": ...}] or
    [{"tool": ..., "args": ..., "error": ...}]. *)
Inductive ToolOutcome : Type :=
| Result (v : value)
| Error (msg : string).

Record ToolResult : Type := mkToolResult {
  res_tool : string;
  res_args : list (string * value);
  res_outcome : ToolOutcome
}.

Definition is_error (r : ToolResult) : bool :=
  match res_outcome r with Error _ => true | Result _ => false end.

(** ** Collaborators and the trace of their calls *)

Inductive Event : Type :=
| EmuInitialize
| EmuScreenshot
| EmuCoordinates
| EmuLocation
| EmuPress (buttons wait : value)
| EmuStop
| BackendChat (model : string) (messages : list OllamaMessage)
              (num_predict : Z) (tools : option (list ToolDecl))
| HistoryAppend (t : Turn).

(** The behaviour of the emulator, of the backend and of the imaging
    library.  Each operation takes the collaborator's current state and
    gives a result (or a raised exception) and the next state.
    [upper_other] is the interpreter's table of the upper case of the
    characters beyond ASCII. *)
Record World : Type := mkWorld {
  Emu : Type;
  Backend : Type;
  Image : Type;
  Coordinates : Type;
  emu_initialize : Emu -> result unit * Emu;
  emu_get_screenshot : Emu -> result Image * Emu;
  emu_get_coordinates : Emu -> result Coordinates * Emu;
  emu_get_location : Emu -> result string * Emu;
  emu_press_buttons : value -> value -> Emu -> result value * Emu;
  emu_stop : Emu -> result unit * Emu;
  backend_chat : string -> list OllamaMessage -> Z -> option (list ToolDecl) ->
                 Backend -> result ChatResponse * Backend;
  image_size : Image -> Z * Z;
  image_resize : Image -> Z * Z -> Image;
  image_png_base64 : Image -> string;
  str_coordinates : Coordinates -> string;
  upper_other : ascii -> string
}.

(** ** Configuration ([config.py]) and constants of [agent.py] *)

Definition LF : string := String (ascii_of_nat 10) EmptyString.
Definition DQ : string := String (ascii_of_nat 34) EmptyString.

Definition MODEL_NAME : string := "hf.co/unsloth/Qwen2.5-Coder-32B-Instruct-GGUF:Q6_K".
Definition MAX_TOKENS : Z := 4000.
Definition USE_NAVIGATOR : bool := false.

Definition SYSTEM_PROMPT : string :=
  "You are playing Pokemon Red. You can see the game screen and control the game by executing emulator commands."
  ++ LF ++ LF ++
  "Your goal is to play through Pokemon Red and eventually defeat the Elite Four. Make decisions based on what you see on the screen."
  ++ LF ++ LF ++
  "Before each action, explain your reasoning briefly, then use the emulator tool to execute your chosen commands."
  ++ LF ++ LF ++
  "The conversation history may occasionally be summarized to save context space. If you see a message labeled "
  ++ DQ ++ "CONVERSATION HISTORY SUMMARY" ++ DQ ++
  ", this contains the key information about your progress so far. Use this information to maintain continuity in your gameplay.".

Definition SUMMARY_PROMPT : string :=
  "I need you to create a detailed summary of our conversation history up to this point. This summary will replace the full conversation history to manage the context window."
  ++ LF ++ LF ++
  "Please include:" ++ LF ++
  "1. Key game events and milestones you've reached" ++ LF ++
  "2. Important decisions you've made" ++ LF ++
  "3. Current objectives or goals you're working toward" ++ LF ++
  "4. Your current location and Pokémon team status" ++ LF ++
  "5. Any strategies or plans you've mentioned"
  ++ LF ++ LF ++
  "The summary should be comprehensive enough that you can continue gameplay without losing important context about what has happened so far.".

Definition MAX_HISTORY : Z := 10.

Definition button_enum : value :=
  VList (map VStr ["a"; "b"; "start"; "select"; "up"; "down"; "left"; "right"]).

Definition press_buttons_tool : ToolDecl :=
  mkTool "press_buttons" "Press a sequence of buttons on the Game Boy."
    (VDict
       [("type", VStr "object");
        ("properties",
         VDict
           [("buttons",
             VDict
               [("type", VStr "array");
                ("items", VDict [("type", VStr "string"); ("enum", button_enum)]);
                ("description",
                 VStr "List of buttons to press in sequence. Valid buttons: 'a', 'b', 'start', 'select', 'up', 'down', 'left', 'right'")]);
            ("wait",
             VDict
               [("type", VStr "boolean");
                ("description",
                 VStr "Whether to wait for a brief period after pressing each button. Defaults to true.")])]);
        ("required", VList [VStr "buttons"])]).

Definition navigate_to_tool : ToolDecl :=
  mkTool "navigate_to"
    "Automatically navigate to a position on the map grid. The screen is divided into a 9x10 grid, with the top-left corner as (0, 0). This tool is only available in the overworld."
    (VDict
       [("type", VStr "object");
        ("properties",
         VDict
           [("row",
             VDict [("type", VStr "integer");
                    ("description", VStr "The row coordinate to navigate to (0-8).")]);
            ("col",
             VDict [("type", VStr "integer");
                    ("description", VStr "The column coordinate to navigate to (0-9).")])]);
        ("required", VList [VStr "row"; VStr "col"])]).

Definition AVAILABLE_TOOLS : list ToolDecl :=
  [press_buttons_tool] ++ (if USE_NAVIGATOR then [navigate_to_tool] else []).

(** ** The agent session and its monad *)

Section Agent.

Variable W : World.

(** [OllamaClient]: the adapter's configuration and the state of the
    backend it talks to. *)
Record OllamaClient : Type := mkClient {
  model_name : string;
  max_tokens : Z;
  client : Backend W
}.

(** [SimpleAgent].  [trace] is the log of collaborator calls and of
    history appends; the program never reads it. *)
Record SimpleAgent : Type := mkAgent {
  emulator : Emu W;
  running : bool;
  max_history : Z;
  message_history : list Turn;
  ollama : OllamaClient;
  trace : list Event
}.

Definition set_emulator (e : Emu W) (st : SimpleAgent) : SimpleAgent :=
  mkAgent e (running st) (max_history st) (message_history st) (ollama st) (trace st).
Definition set_running (b : bool) (st : SimpleAgent) : SimpleAgent :=
  mkAgent (emulator st) b (max_history st) (message_history st) (ollama st) (trace st).
Definition set_message_history (h : list Turn) (st : SimpleAgent) : SimpleAgent :=
  mkAgent (emulator st) (running st) (max_history st) h (ollama st) (trace st).
Definition set_backend (b : Backend W) (st : SimpleAgent) : SimpleAgent :=
  mkAgent (emulator st) (running st) (max_history st) (message_history st)
          (mkClient (model_name (ollama st)) (max_tokens (ollama st)) b) (trace st).
Definition log (ev : Event) (st : SimpleAgent) : SimpleAgent :=
  mkAgent (emulator st) (running st) (max_history st) (message_history st)
          (ollama st) (trace st ++ [ev]).

(** A computation either returns a value or raises; both leave a state. *)
Inductive outcome (A : Type) : Type :=
| Returns (a : A) (st : SimpleAgent)
| Raises (e : exn) (st : SimpleAgent).
Arguments Returns {A} a st.
Arguments Raises {A} e st.

Definition M (A : Type) : Type := SimpleAgent -> outcome A.

Definition ret {A} (a : A) : M A := fun st => Returns a st.

Definition bind {A B} (m : M A) (k : A -> M B) : M B :=
  fun st =>
    match m st with
    | Returns a st' => k a st'
    | Raises e st' => Raises e st'
    end.

Definition raise {A} (e : exn) : M A := fun st => Raises e st.

Definition gets {A} (f : SimpleAgent -> A) : M A := fun st => Returns (f st) st.

Definition modify (f : SimpleAgent -> SimpleAgent) : M unit :=
  fun st => Returns tt (f st).

(** [try: body  except Exception as e: handler e]. *)
Definition try_except {A} (body : M A) (handler : exn -> M A) : M A :=
  fun st =>
    match body st with
    | Raises (Exception cls msg) st' => handler (Exception cls msg) st'
    | r => r
    end.

Definition final_state {A} (o : outcome A) : SimpleAgent :=
  match o with Returns _ st => st | Raises _ st => st end.

Definition returns {A} (o : outcome A) : bool :=
  match o with Returns _ _ => true | Raises _ _ => false end.

Notation "x <- m ;; k" := (bind m (fun x => k))
  (at level 61, m at next level, right associativity).
Notation "m ;;; k" := (bind m (fun _ => k))
  (at level 61, right associativity).

(** A call to the emulator: logged, then performed. *)
Definition emu_call {A} (ev : Event) (op : Emu W -> result A * Emu W) : M A :=
  fun st =>
    let (r, e') := op (emulator st) in
    let st' := set_emulator e' (log ev st) in
    match r with
    | Ok a => Returns a st'
    | Err e => Raises e st'
    end.

(** [self.client.chat(model=..., messages=..., options=..., tools=...)]. *)
Definition client_chat (messages : list OllamaMessage)
           (tools : option (list ToolDecl)) : M ChatResponse :=
  fun st =>
    let c := ollama st in
    let (r, b') := backend_chat W (model_name c) messages (max_tokens c) tools (client c) in
    let st' := set_backend b' (log (BackendChat (model_name c) messages (max_tokens c) tools) st) in
    match r with
    | Ok a => Returns a st'
    | Err e => Raises e st'
    end.

(** [self.message_history.append(turn)]. *)
Definition history_append (t : Turn) : M unit :=
  modify (fun st => log (HistoryAppend t)
                        (set_message_history (message_history st ++ [t]) st)).

(** *** [ollama_client.py] *)

(** [tools if tools else None]. *)
Definition tools_or_none (tools : option (list ToolDecl)) : option (list ToolDecl) :=
  match tools with
  | Some (_ :: _) => tools
  | _ => None
  end.

(** [OllamaClient.chat_via_client]. *)
Definition chat_via_client (messages : list OllamaMessage)
           (tools : option (list ToolDecl)) : M Reply :=
  try_except
    (response <- client_chat messages (tools_or_none tools) ;;
     ret (Obj response))
    (fun e => ret (Mapping ("Error: " ++ str_exn e))).

(** [response.message]: a mapping has no such attribute. *)
Definition attr_message (response : Reply) : M Message :=
  match response with
  | Obj r => ret (response_message r)
  | Mapping _ =>
      raise (Exception "AttributeError" "'dict' object has no attribute 'message'")
  end.

(** A registered action, called with keyword arguments. *)
Definition Callable : Type := list (string * value) -> M value.

Definition TypeError (msg : string) : exn := Exception "TypeError" msg.

(** The loop body of [call_tool_from_response] for one tool call. *)
Definition call_one_tool (available_functions : list (string * Callable))
           (tool : ToolCall) : M ToolResult :=
  let function_name := fn_name (tc_function tool) in
  let function_args := fn_arguments (tc_function tool) in
  match assoc function_name available_functions with
  | Some function_to_call =>
      try_except
        (result <- function_to_call function_args ;;
         ret (mkToolResult function_name function_args (Result result)))
        (fun e => ret (mkToolResult function_name function_args (Error (str_exn e))))
  | None =>
      ret (mkToolResult function_name function_args
             (Error ("Function " ++ function_name ++ " not found")))
  end.

(** The [for tool in response.message.tool_calls] loop. *)
Fixpoint call_tools (available_functions : list (string * Callable))
         (tool_calls : list ToolCall) (results : list ToolResult)
  : M (list ToolResult) :=
  match tool_calls with
  | [] => ret results
  | tool :: rest =>
      entry <- call_one_tool available_functions tool ;;
      call_tools available_functions rest (results ++ [entry])
  end.

(** [OllamaClient.call_tool_from_response]. *)
Definition call_tool_from_response (response : Reply)
           (available_functions : list (string * Callable))
  : M (list ToolResult) :=
  let results := [] in
  message <- attr_message response ;;
  match message_tool_calls message with
  | Some (tool :: rest) => call_tools available_functions (tool :: rest) results
  | _ => ret results
  end.

(** *** [agent/agent.py] *)

(** [get_screenshot_base64(screenshot, upscale)]. *)
Definition get_screenshot_base64 (screenshot : Image W) (upscale : option Z) : string :=
  let screenshot :=
    match upscale with
    | Some u =>
        if negb (u =? 0) && (u >? 1) then
          let (width, height) := image_size W screenshot in
          image_resize W screenshot (width * u, height * u)
        else screenshot
    | None => screenshot
    end in
  image_png_base64 W screenshot.

Definition png_part (data : string) : Part := ImagePart "base64" "image/png" data.

(** Modelled from the spec: the signature of [Emulator.press_buttons],
    whose source file is not part of the modelled sources:
    [pressButtons(buttons, wait = true)].  A call with keyword arguments
    fails with a [TypeError] on an unknown keyword or a missing [buttons];
    the texts are those of Python 3.10 and later, which name the callable
    by its qualified name. *)
Definition press_buttons (kwargs : list (string * value)) : M value :=
  match find (fun kv => negb (String.eqb (fst kv) "buttons" || String.eqb (fst kv) "wait")) kwargs with
  | Some (k, _) =>
      raise (TypeError ("Emulator.press_buttons() got an unexpected keyword argument '" ++ k ++ "'"))
  | None =>
      match assoc "buttons" kwargs with
      | None =>
          raise (TypeError "Emulator.press_buttons() missing 1 required positional argument: 'buttons'")
      | Some buttons =>
          let wait := match assoc "wait" kwargs with Some w => w | None => VBool true end in
          emu_call (EmuPress buttons wait) (emu_press_buttons W buttons wait)
      end
  end.

(** [lambda button: self.emulator.press_buttons(buttons=[button])]. *)
Definition press (kwargs : list (string * value)) : M value :=
  match find (fun kv => negb (String.eqb (fst kv) "button")) kwargs with
  | Some (k, _) =>
      raise (TypeError ("SimpleAgent.get_available_functions.<locals>.<lambda>() got an unexpected keyword argument '" ++ k ++ "'"))
  | None =>
      match assoc "button" kwargs with
      | None =>
          raise (TypeError "SimpleAgent.get_available_functions.<locals>.<lambda>() missing 1 required positional argument: 'button'")
      | Some button => press_buttons [("buttons", VList [button])]
      end
  end.

(** [SimpleAgent.get_available_functions]. *)
Definition get_available_functions : list (string * Callable) :=
  [("press_buttons", press_buttons); ("press", press)].

(** [SimpleAgent._send_initial_observation]. *)
Definition _send_initial_observation : M unit :=
  screenshot <- emu_call EmuScreenshot (emu_get_screenshot W) ;;
  let screenshot_b64 := get_screenshot_base64 screenshot (Some 2) in
  let initial_message :=
    mkTurn "user"
      (Parts
         [TextPart "You are playing Pokémon Red. What do you want to do? You can press buttons like A, B, START, SELECT, UP, DOWN, LEFT, and RIGHT.";
          png_part screenshot_b64]) in
  history_append initial_message.

(** The body of the outer loop of [_format_messages_for_ollama]: the
    content of one turn as a single text. *)
Definition flatten_content (c : Content) : pytext :=
  match c with
  | Parts items =>
      PStr (fold_left
              (fun content item =>
                 match item with
                 | TextPart text => content ++ text ++ LF
                 | ImagePart _ _ _ => content ++ "[IMAGE: Game Screenshot]" ++ LF
                 end)
              items "")
  | Text s => s
  end.

(** [SimpleAgent._format_messages_for_ollama]. *)
Definition _format_messages_for_ollama : M (list OllamaMessage) :=
  history <- gets message_history ;;
  ret (fold_left
         (fun ollama_messages msg =>
            (ollama_messages ++ [mkMsg (turn_role msg) (flatten_content (turn_content msg))])%list)
         history
         [mkMsg "system" SYSTEM_PROMPT]).

(** [SimpleAgent._get_next_action]. *)
Definition _get_next_action : M Reply :=
  screenshot <- emu_call EmuScreenshot (emu_get_screenshot W) ;;
  let screenshot_b64 := get_screenshot_base64 screenshot (Some 2) in
  coordinates <- emu_call EmuCoordinates (emu_get_coordinates W) ;;
  location <- emu_call EmuLocation (emu_get_location W) ;;
  let user_message :=
    mkTurn "user"
      (Parts
         [TextPart ("Current game state:" ++ LF ++ "Location: " ++ location ++ LF ++
                    "Coordinates: " ++ str_coordinates W coordinates ++ LF ++ LF ++
                    "What button(s) would you like to press next?");
          png_part screenshot_b64]) in
  history_append user_message ;;;
  messages <- _format_messages_for_ollama ;;
  chat_via_client messages (Some AVAILABLE_TOOLS).

(** The text of a reply, as both [_process_response] and
    [summarize_history] extract it: [response["message"]["content"]] when
    both keys are there, the empty string otherwise.  A reply object
    always has its [message]; its [content] is a key when it is set, be it
    to [None]. *)
Definition response_content (response : Reply) : pytext :=
  match response with
  | Obj r =>
      match message_content (response_message r) with
      | Some content => content
      | None => PStr ""
      end
  | Mapping text => PStr text
  end.

Definition valid_buttons : list string :=
  ["A"; "B"; "START"; "SELECT"; "UP"; "DOWN"; "LEFT"; "RIGHT"].

(** [c.upper()] for one character: ASCII folding, or the interpreter's
    table. *)
Definition upper_char (c : ascii) : string :=
  if (nat_of_ascii c <? 128)%nat then String (Str.upper_ascii c) EmptyString
  else upper_other W c.

(** [content.upper()]: character by character. *)
Fixpoint upper (content : string) : string :=
  match content with
  | EmptyString => EmptyString
  | String c rest => upper_char c ++ upper rest
  end.

(** The scanning loop of [_parse_and_execute_text_response], on the text
    of the reply. *)
Definition buttons_to_press (content : string) : list string :=
  let content := upper content in
  fold_left
    (fun buttons_to_press button =>
       if Str.contains button content then (buttons_to_press ++ [button])%list
       else buttons_to_press)
    valid_buttons [].

(** [SimpleAgent._parse_and_execute_text_response].  [None] has no
    [upper]. *)
Definition _parse_and_execute_text_response (content : pytext) : M unit :=
  match content with
  | PNone =>
      raise (Exception "AttributeError" "'NoneType' object has no attribute 'upper'")
  | PStr content =>
      match buttons_to_press content with
      | [] => ret tt
      | b :: bs =>
          emu_call (EmuPress (VList (map VStr (b :: bs))) (VBool true))
                   (emu_press_buttons W (VList (map VStr (b :: bs))) (VBool true)) ;;;
          ret tt
      end
  end.

(** [SimpleAgent._process_response]. *)
Definition _process_response (response : Reply) : M unit :=
  let content := response_content response in
  let assistant_message := mkTurn "assistant" (Text content) in
  history_append assistant_message ;;;
  let available_functions := get_available_functions in
  results <- call_tool_from_response response available_functions ;;
  match results with
  | _ :: _ => ret tt
  | [] => _parse_and_execute_text_response content
  end.

(** The first half of [summarize_history]: the fresh screenshot and the
    summary obtained from the backend. *)
Definition request_summary : M (string * pytext) :=
  screenshot <- emu_call EmuScreenshot (emu_get_screenshot W) ;;
  let screenshot_b64 := get_screenshot_base64 screenshot (Some 2) in
  messages <- _format_messages_for_ollama ;;
  let messages := (messages ++ [mkMsg "user" SUMMARY_PROMPT])%list in
  response <- chat_via_client messages None ;;
  let summary_text := response_content response in
  ret (screenshot_b64, summary_text).

(** The turn that replaces the history. *)
Definition summary_turn (max_history : Z) (summary_text screenshot_b64 : string) : Turn :=
  mkTurn "user"
    (Parts
       [TextPart ("CONVERSATION HISTORY SUMMARY (representing " ++ Str.of_Z max_history ++
                  " previous messages): " ++ summary_text);
        TextPart (LF ++ LF ++ "Current game screenshot for reference:");
        png_part screenshot_b64;
        TextPart "You were just asked to summarize your playthrough so far, which is the summary you see above. You may now continue playing by selecting your next action."]).

(** [SimpleAgent.summarize_history]. *)
Definition summarize_history : M unit :=
  r <- request_summary ;;
  let (screenshot_b64, summary_text) := r in
  modify (fun st =>
            set_message_history
              [summary_turn (max_history st) (format_text summary_text) screenshot_b64]
              st).

(** One iteration of the loop of [run], up to the summarization check. *)
Definition step : M unit :=
  response <- _get_next_action ;;
  _process_response response.

(** The summarization check that ends an iteration. *)
Definition summarize_if_needed : M unit :=
  fun st =>
    if Z.of_nat (length (message_history st)) >? max_history st * 2
    then summarize_history st
    else Returns tt st.

(** The [while] loop of [run].  [fuel] bounds the number of iterations;
    [run] gives it [num_steps], which the loop cannot exceed
    (see [run_loop_fuel]). *)
Fixpoint run_loop (fuel : nat) (num_steps steps_completed : Z) : M Z :=
  match fuel with
  | O => ret steps_completed
  | S fuel' =>
      fun st =>
        if running st && (steps_completed <? num_steps) then
          (step ;;;
           let steps_completed := steps_completed + 1 in
           summarize_if_needed ;;;
           run_loop fuel' num_steps steps_completed) st
        else Returns steps_completed st
  end.

(** What [run] does before its loop. *)
Definition start : M unit :=
  emu_call EmuInitialize (emu_initialize W) ;;;
  modify (set_running true) ;;;
  _send_initial_observation.

(** [SimpleAgent.run]. *)
Definition run (num_steps : Z) : M Z :=
  start ;;;
  let steps_completed := 0 in
  run_loop (Z.to_nat num_steps) num_steps steps_completed.

(** [SimpleAgent.stop]. *)
Definition stop : M unit :=
  modify (set_running false) ;;;
  emu_call EmuStop (emu_stop W).

(** [SimpleAgent.__init__], from the initial states of the emulator and
    of the backend.  The availability probe of [OllamaClient.__init__]
    only prints and is left out. *)
Definition init (e : Emu W) (b : Backend W) : SimpleAgent :=
  mkAgent e false MAX_HISTORY [] (mkClient MODEL_NAME MAX_TOKENS b) [].

(** *** [main.py] *)

(** [main]: [try: agent.run(n)  except KeyboardInterrupt: ...
    finally: agent.stop()]. *)
Definition main (steps : Z) (e : Emu W) (b : Backend W) : outcome unit :=
  let agent := init e b in
  match run steps agent with
  | Returns _ st => stop st
  | Raises KeyboardInterrupt st => stop st
  | Raises e st =>
      match stop st with
      | Returns _ st' => Raises e st'
      | Raises e' st' => Raises e' st'
      end
  end.

End Agent.

Arguments Returns {W A} a st.
Arguments Raises {W A} e st.

(** ** Vocabulary of the statements *)

(** [needle] occurs in [text] up to the case of the ASCII letters. *)
Definition occurs_ci (needle text : string) : Prop :=
  exists pre mid suf,
    text = pre ++ mid ++ suf /\ Str.upper mid = Str.upper needle.

(** The tool invocation requests carried by a reply.  The mapping built by
    [chat_via_client] has a [message] with a [content] only. *)
Definition tool_requests (r : Reply) : list ToolCall :=
  match r with
  | Obj r =>
      match message_tool_calls (response_message r) with
      | Some l => l
      | None => []
      end
  | Mapping _ => []
  end.

(** What one result entry says about its request: it repeats the name and
    the arguments, and reports a name that is not registered as not found. *)
Definition answers (W : World) (tool : ToolCall) (entry : ToolResult) : Prop :=
  res_tool entry = fn_name (tc_function tool) /\
  res_args entry = fn_arguments (tc_function tool) /\
  (assoc (fn_name (tc_function tool)) (get_available_functions W) = None ->
   res_outcome entry
   = Error ("Function " ++ fn_name (tc_function tool) ++ " not found")).

(** The turns appended to the history, in order, as the trace records them. *)
Fixpoint appended (tr : list Event) : list Turn :=
  match tr with
  | [] => []
  | HistoryAppend t :: tr' => t :: appended tr'
  | _ :: tr' => appended tr'
  end.

(** How often the emulator's teardown was invoked. *)
Fixpoint teardowns (tr : list Event) : nat :=
  match tr with
  | [] => O
  | EmuStop :: tr' => S (teardowns tr')
  | _ :: tr' => teardowns tr'
  end.

(** The kinds of parts, and the parts of a turn. *)
Definition is_image (p : Part) : bool :=
  match p with ImagePart _ _ _ => true | TextPart _ => false end.

Definition is_text (p : Part) : bool :=
  match p with TextPart _ => true | ImagePart _ _ _ => false end.

Definition parts_of (t : Turn) : list Part :=
  match turn_content t with Parts ps => ps | Text _ => [] end.

Definition history_length (W : World) (st : SimpleAgent W) : Z :=
  Z.of_nat (length (message_history st)).

(** The observation and reply turns of [n] steps. *)
Fixpoint step_roles (n : nat) : list string :=
  match n with
  | O => []
  | S n' => "user" :: "assistant" :: step_roles n'
  end.

(** A text made of ASCII characters. *)
Fixpoint ascii_text (s : string) : bool :=
  match s with
  | EmptyString => true
  | String c rest => (nat_of_ascii c <? 128)%nat && ascii_text rest
  end.

(** A backend request that asks for a summary: no tools, and the
    summarization request as its last message. *)
Definition is_summary_request (ev : Event) : bool :=
  match ev with
  | BackendChat _ messages _ None =>
      match rev messages with
      | mkMsg role (PStr content) :: _ =>
          String.eqb role "user" && String.eqb content SUMMARY_PROMPT
      | _ => false
      end
  | _ => false
  end.

(** How many summaries were asked of the backend. *)
Definition summaries (tr : list Event) : nat := length (filter is_summary_request tr).

(** The press that a tool call asks of the emulator: the call names a
    registered action and its arguments fit that action. *)
Definition requested_press (tool : ToolCall) : option Event :=
  let name := fn_name (tc_function tool) in
  let args := fn_arguments (tc_function tool) in
  if String.eqb name "press_buttons" then
    match find (fun kv => negb (String.eqb (fst kv) "buttons" || String.eqb (fst kv) "wait")) args,
          assoc "buttons" args with
    | None, Some buttons =>
        Some (EmuPress buttons
                (match assoc "wait" args with Some w => w | None => VBool true end))
    | _, _ => None
    end
  else if String.eqb name "press" then
    match find (fun kv => negb (String.eqb (fst kv) "button")) args,
          assoc "button" args with
    | None, Some button => Some (EmuPress (VList [button]) (VBool true))
    | _, _ => None
    end
  else None.

(** The presses that a list of tool calls asks of the emulator, in order. *)
Definition requested_presses (calls : list ToolCall) : list Event :=
  flat_map (fun tool => match requested_press tool with
                        | Some ev => [ev]
                        | None => []
                        end) calls.

(** [executes calls e entries e']: the calls are carried out one after the
    other on the emulator, from its state [e] to [e'], and [entries] are
    their records: an error for a call that asks no press, the value the
    emulator returned, or the text of the exception it raised; whatever
    the record of a call, the calls after it are carried out. *)
Inductive executes (W : World) :
  list ToolCall -> Emu W -> list ToolResult -> Emu W -> Prop :=
| executes_nil : forall e, executes W [] e [] e
| executes_rejected : forall tool rest e entries e' msg,
    requested_press tool = None ->
    executes W rest e entries e' ->
    executes W (tool :: rest) e
      (mkToolResult (fn_name (tc_function tool)) (fn_arguments (tc_function tool))
         (Error msg) :: entries) e'
| executes_returned : forall tool rest e buttons wait v e1 entries e',
    requested_press tool = Some (EmuPress buttons wait) ->
    emu_press_buttons W buttons wait e = (Ok v, e1) ->
    executes W rest e1 entries e' ->
    executes W (tool :: rest) e
      (mkToolResult (fn_name (tc_function tool)) (fn_arguments (tc_function tool))
         (Result v) :: entries) e'
| executes_failed : forall tool rest e buttons wait cls msg e1 entries e',
    requested_press tool = Some (EmuPress buttons wait) ->
    emu_press_buttons W buttons wait e = (Err (Exception cls msg), e1) ->
    executes W rest e1 entries e' ->
    executes W (tool :: rest) e
      (mkToolResult (fn_name (tc_function tool)) (fn_arguments (tc_function tool))
         (Error msg) :: entries) e'.

(** The observation turn of a step, for what the emulator showed. *)
Definition observation_turn (W : World) (img : Image W) (coordinates : Coordinates W)
           (location : string) : Turn :=
  mkTurn "user"
    (Parts
       [TextPart ("Current game state:" ++ LF ++ "Location: " ++ location ++ LF ++
                  "Coordinates: " ++ str_coordinates W coordinates ++ LF ++ LF ++
                  "What button(s) would you like to press next?");
        png_part (get_screenshot_base64 W img (Some 2))]).

(** The messages sent to the backend for a history: the system prompt,
    then one message per turn. *)
Definition sent_messages (history : list Turn) : list OllamaMessage :=
  mkMsg "system" SYSTEM_PROMPT ::
  map (fun msg => mkMsg (turn_role msg) (flatten_content (turn_content msg))) history.

(** The turn that records a reply. *)
Definition reply_turn (r : Reply) : Turn :=
  mkTurn "assistant" (Text (response_content r)).

(** The presses that a reply of the backend leads to: those of its tool
    calls when it has any, else the one batch of the buttons that its
    text names. *)
Definition reply_presses (W : World) (r : ChatResponse) : list Event :=
  match message_tool_calls (response_message r) with
  | Some (tool :: rest) => requested_presses (tool :: rest)
  | _ =>
      match response_content (Obj r) with
      | PStr text =>
          match buttons_to_press W text with
          | [] => []
          | bs => [EmuPress (VList (map VStr bs)) (VBool true)]
          end
      | PNone => []
      end
  end.

(** The request that a step makes of the backend, after the observation
    [obs] was appended to the history of [st]. *)
Definition step_request (W : World) (st : SimpleAgent W) (obs : Turn) : Event :=
  BackendChat (model_name (ollama st)) (sent_messages (message_history st ++ [obs]))
              (max_tokens (ollama st)) (Some AVAILABLE_TOOLS).

(** The turns of a number of steps: for each step an observation of the
    emulator, then the text of a reply. *)
Inductive step_turns (W : World) : nat -> list Turn -> Prop :=
| step_turns_O : step_turns W O []
| step_turns_S : forall n img coordinates location text rest,
    step_turns W n rest ->
    step_turns W (S n)
      (observation_turn W img coordinates location ::
       mkTurn "assistant" (Text (PStr text)) :: rest).

(** [steps n st st']: from [st], [n] iterations of the body of the loop of
    [run] (a step, then the summarization check) return, and lead
    to [st']. *)
Inductive steps (W : World) : nat -> SimpleAgent W -> SimpleAgent W -> Prop :=
| steps_O : forall st, steps O st st
| steps_S : forall n st st1 st2 st',
    step st = Returns tt st1 ->
    summarize_if_needed st1 = Returns tt st2 ->
    steps n st2 st' ->
    steps (S n) st st'.

(** No call to a collaborator is interrupted: none raises
    [KeyboardInterrupt]. *)
Record uninterrupted (W : World) : Prop := mkUninterrupted {
  un_initialize : forall e, fst (emu_initialize W e) <> Err KeyboardInterrupt;
  un_screenshot : forall e, fst (emu_get_screenshot W e) <> Err KeyboardInterrupt;
  un_coordinates : forall e, fst (emu_get_coordinates W e) <> Err KeyboardInterrupt;
  un_location : forall e, fst (emu_get_location W e) <> Err KeyboardInterrupt;
  un_press : forall bs w e, fst (emu_press_buttons W bs w e) <> Err KeyboardInterrupt;
  un_stop : forall e, fst (emu_stop W e) <> Err KeyboardInterrupt;
  un_chat : forall m msgs n tools b,
      fst (backend_chat W m msgs n tools b) <> Err KeyboardInterrupt
}.

(** No call to a collaborator raises, and the content of a reply of the
    backend is never [None]. *)
Record calm (W : World) : Prop := mkCalm {
  calm_initialize : forall e, is_ok (fst (emu_initialize W e)) = true;
  calm_screenshot : forall e, is_ok (fst (emu_get_screenshot W e)) = true;
  calm_coordinates : forall e, is_ok (fst (emu_get_coordinates W e)) = true;
  calm_location : forall e, is_ok (fst (emu_get_location W e)) = true;
  calm_press : forall bs w e, is_ok (fst (emu_press_buttons W bs w e)) = true;
  calm_stop : forall e, is_ok (fst (emu_stop W e)) = true;
  calm_chat : forall m msgs n tools b, is_ok (fst (backend_chat W m msgs n tools b)) = true;
  calm_text : forall m msgs n tools b r,
      fst (backend_chat W m msgs n tools b) = Ok r ->
      message_content (response_message r) <> Some PNone
}.

(** The program points of [run] at which the history is inspected: the
    test of the loop condition and the summarization check. *)
Inductive point : Type := AtLoopTest | AtCheck.

(** The states in which an execution of [run] from [st0] passes these
    points, whatever the step budget. *)
Inductive reaches (W : World) (st0 : SimpleAgent W) : point -> SimpleAgent W -> Prop :=
| reach_start : forall st,
    start st0 = Returns tt st ->
    reaches st0 AtLoopTest st
| reach_step : forall st st',
    reaches st0 AtLoopTest st ->
    running st = true ->
    step st = Returns tt st' ->
    reaches st0 AtCheck st'
| reach_checked : forall st st',
    reaches st0 AtCheck st ->
    summarize_if_needed st = Returns tt st' ->
    reaches st0 AtLoopTest st'.

(** ** Concrete collaborators *)

Module Demo.

(** A scripted reply: its text and its tool calls. *)
Definition scripted : Type := (string * option (list ToolCall))%type.

Definition reply_of (s : scripted) : ChatResponse :=
  mkResponse (mkMessage "assistant" (Some (PStr (fst s))) (snd s)).

Definition plain_reply (text : string) : ChatResponse := reply_of (text, None).

Definition tool_reply (calls : list ToolCall) : ChatResponse := reply_of ("", Some calls).

(** A reply whose content is set to [None]. *)
Definition none_reply : ChatResponse :=
  mkResponse (mkMessage "assistant" (Some PNone) None).

(** An emulator that accepts every call and counts the button batches it
    was given. *)
Definition emu_ops_press (bs w : value) (n : nat) : result value * nat :=
  (Ok (VStr "pressed"), S n).

(** A backend that replays a script of replies, then answers with an
    empty text. *)
Definition replay (script : list scripted) : result ChatResponse * list scripted :=
  match script with
  | [] => (Ok (plain_reply ""), [])
  | r :: rest => (Ok (reply_of r), rest)
  end.

(** Characters beyond ASCII that have no case. *)
Definition caseless (c : ascii) : string := String c EmptyString.

Definition replay_world : World :=
  mkWorld
    (fun n : nat => (Ok tt, n))
    (fun n => (Ok tt, n))
    (fun n => (Ok (3, 4), n))
    (fun n => (Ok "PALLET TOWN", n))
    emu_ops_press
    (fun n => (Ok tt, n))
    (fun _ _ _ _ script => replay script)
    (fun _ : unit => (160, 144))
    (fun img _ => img)
    (fun _ => "iVBORw0KGgo=")
    (fun c : Z * Z => "(" ++ Str.of_Z (fst c) ++ ", " ++ Str.of_Z (snd c) ++ ")")
    caseless.

(** The same emulator with a backend that is not reachable. *)
Definition offline_world : World :=
  mkWorld
    (fun n : nat => (Ok tt, n))
    (fun n => (Ok tt, n))
    (fun n => (Ok (3, 4), n))
    (fun n => (Ok "PALLET TOWN", n))
    emu_ops_press
    (fun n => (Ok tt, n))
    (fun _ _ _ _ (b : unit) => (Err (Exception "ConnectionError" "Failed to connect to Ollama"), b))
    (fun _ : unit => (160, 144))
    (fun img _ => img)
    (fun _ => "iVBORw0KGgo=")
    (fun c : Z * Z => "(" ++ Str.of_Z (fst c) ++ ", " ++ Str.of_Z (snd c) ++ ")")
    caseless.

(** The same emulator with a backend whose replies have the content
    [None]. *)
Definition mute_world : World :=
  mkWorld
    (fun n : nat => (Ok tt, n))
    (fun n => (Ok tt, n))
    (fun n => (Ok (3, 4), n))
    (fun n => (Ok "PALLET TOWN", n))
    emu_ops_press
    (fun n => (Ok tt, n))
    (fun _ _ _ _ (b : unit) => (Ok none_reply, b))
    (fun _ : unit => (160, 144))
    (fun img _ => img)
    (fun _ => "iVBORw0KGgo=")
    (fun c : Z * Z => "(" ++ Str.of_Z (fst c) ++ ", " ++ Str.of_Z (snd c) ++ ")")
    caseless.

(** A character beyond ASCII whose upper case is the ASCII letter I, as
    that of the dotless i is. *)
Definition dotless_i : ascii := ascii_of_nat 253.

Definition dotless_world : World :=
  mkWorld
    (fun n : nat => (Ok tt, n))
    (fun n => (Ok tt, n))
    (fun n => (Ok (3, 4), n))
    (fun n => (Ok "PALLET TOWN", n))
    emu_ops_press
    (fun n => (Ok tt, n))
    (fun _ _ _ _ script => replay script)
    (fun _ : unit => (160, 144))
    (fun img _ => img)
    (fun _ => "iVBORw0KGgo=")
    (fun c : Z * Z => "(" ++ Str.of_Z (fst c) ++ ", " ++ Str.of_Z (snd c) ++ ")")
    (fun c => if Ascii.eqb c dotless_i then "I" else caseless c).

Definition unknown_then_known : list ToolCall :=
  [mkToolCall (mkFunction "jump" []);
   mkToolCall (mkFunction "press_buttons" [("buttons", VList [VStr "a"])])].

(** An agent whose history has grown to 21 turns. *)
Definition long_history : SimpleAgent replay_world :=
  set_message_history (repeat (mkTurn "assistant" (Text "press A")) 21)
                      (init replay_world 0%nat [("We are in Pallet Town.", None)]).

End Demo.

(** ** Vocabulary of the proofs *)

Section Frames.

Variable W : World.

(** What a computation leaves alone: everything but the collaborators'
    states and the events that are neither appends nor teardowns. *)
Record frame (st st' : SimpleAgent W) : Prop := mkFrame {
  frame_running : running st' = running st;
  frame_max_history : max_history st' = max_history st;
  frame_model : model_name (ollama st') = model_name (ollama st);
  frame_tokens : max_tokens (ollama st') = max_tokens (ollama st);
  frame_appended : appended (trace st') = appended (trace st);
  frame_teardowns : teardowns (trace st') = teardowns (trace st)
}.

Definition quiet (st st' : SimpleAgent W) : Prop :=
  frame st st' /\ message_history st' = message_history st.

(** The events that are neither appends nor teardowns. *)
Definition silent (ev : Event) : bool :=
  match ev with
  | EmuStop | HistoryAppend _ => false
  | _ => true
  end.

(** [grows st st' ts]: from [st] to [st'] exactly the turns [ts] were
    appended to the history, and the flags, the configuration and the
    number of teardowns are as before. *)
Record grows (st st' : SimpleAgent W) (ts : list Turn) : Prop := mkGrows {
  grows_running : running st' = running st;
  grows_max_history : max_history st' = max_history st;
  grows_model : model_name (ollama st') = model_name (ollama st);
  grows_tokens : max_tokens (ollama st') = max_tokens (ollama st);
  grows_teardowns : teardowns (trace st') = teardowns (trace st);
  grows_history : message_history st' = (message_history st ++ ts)%list;
  grows_appended : appended (trace st') = (appended (trace st) ++ ts)%list
}.

(** [Quiet m]: however [m] ends, it has neither touched the history nor
    stopped the emulator. *)
Definition Quiet {A} (m : M W A) : Prop := forall st, quiet st (final_state (m st)).

(** [Total m]: [m] returns from every state. *)
Definition Total {A} (m : M W A) : Prop := forall st, returns (m st) = true.

(** [Soft m]: if [m] raises, it raises an [Exception]. *)
Definition Soft {A} (m : M W A) : Prop :=
  forall st st', m st <> Raises KeyboardInterrupt st'.

(** [NoTeardown m]: however [m] ends, it has not stopped the emulator. *)
Definition NoTeardown {A} (m : M W A) : Prop :=
  forall st, teardowns (trace (final_state (m st))) = teardowns (trace st).

End Frames.

(** ** Vocabulary of the further properties *)

(** The line that stands for one part in a flattened message. *)
Definition part_line (p : Part) : string :=
  match p with
  | TextPart text => text ++ LF
  | ImagePart _ _ _ => "[IMAGE: Game Screenshot]" ++ LF
  end.

(** A part without the payload of its image. *)
Definition redact (p : Part) : Part :=
  match p with
  | TextPart text => TextPart text
  | ImagePart _ _ _ => ImagePart "" "" ""
  end.

(** An event that is not a request to the backend. *)
Definition not_chat (ev : Event) : Prop :=
  match ev with
  | BackendChat _ _ _ _ => False
  | _ => True
  end.

(** A backend request as [run] makes them: the system prompt first, at
    most [bound] messages, and either no tools or the declared ones. *)
Definition request_ok (bound : Z) (ev : Event) : Prop :=
  match ev with
  | BackendChat _ messages _ tools =>
      hd_error messages = Some (mkMsg "system" SYSTEM_PROMPT) /\
      Z.of_nat (length messages) <= bound /\
      (tools = None \/ tools = Some AVAILABLE_TOOLS)
  | _ => True
  end.

(** The turn of the initial observation, for the first screenshot. *)
Definition initial_turn (W : World) (img : Image W) : Turn :=
  mkTurn "user"
    (Parts
       [TextPart "You are playing Pokémon Red. What do you want to do? You can press buttons like A, B, START, SELECT, UP, DOWN, LEFT, and RIGHT.";
        png_part (get_screenshot_base64 W img (Some 2))]).

Section Added.

Variable W : World.

(** [Adds P m]: however [m] ends, the events it has logged all satisfy [P]. *)
Definition Adds {A} (P : Event -> Prop) (m : M W A) : Prop :=
  forall st, exists evs,
    trace (final_state (m st)) = (trace st ++ evs)%list /\ Forall P evs.

(** The requests of a whole trace are within the bound of the agent. *)
Definition requests_bounded (st : SimpleAgent W) : Prop :=
  Forall (request_ok (2 * max_history st + 3)) (trace st).

End Added.

(** Collaborators that fail: the screen is available only when the
    emulator's state says so, and no button can be pressed. *)
Module Faulty.

Definition screenshot (screen_ok : bool) : result unit * bool :=
  if screen_ok then (Ok tt, screen_ok)
  else (Err (Exception "RuntimeError" "screen unavailable"), screen_ok).

Definition world : World :=
  mkWorld
    (fun s : bool => (Ok tt, s))
    screenshot
    (fun s => (Ok (3, 4), s))
    (fun s => (Ok "PALLET TOWN", s))
    (fun _ _ s => (Err (Exception "ValueError" "Invalid button"), s))
    (fun s => (Ok tt, s))
    (fun _ _ _ _ script => Demo.replay script)
    (fun _ : unit => (160, 144))
    (fun img _ => img)
    (fun _ => "iVBORw0KGgo=")
    (fun c : Z * Z => "(" ++ Str.of_Z (fst c) ++ ", " ++ Str.of_Z (snd c) ++ ")")
    Demo.caseless.

End Faulty.

(** * Properties *)

(** ** Strings and the button scanner *)

Lemma append_assoc (a b c : string) : (a ++ b) ++ c = a ++ b ++ c.
Proof. induction a as [|x a IH]; simpl; [reflexivity | now rewrite IH]. Qed.

Lemma append_empty_r (a : string) : a ++ "" = a.
Proof. induction a as [|x a IH]; simpl; [reflexivity | now rewrite IH]. Qed.

Module StrFacts.

Import Str.

Lemma upper_app (a b : string) : upper (a ++ b) = upper a ++ upper b.
Proof. induction a as [|c a IH]; simpl; [reflexivity | now rewrite IH]. Qed.

(** A split of the upper-cased text comes from a split of the text. *)
Lemma upper_split (s x y : string) :
  upper s = x ++ y ->
  exists a b, s = a ++ b /\ upper a = x /\ upper b = y.
Proof.
  revert x; induction s as [|c s IH]; intros x H.
  - destruct x; simpl in H; [|discriminate].
    exists "", ""; simpl; auto.
  - destruct x as [|d x]; simpl in H.
    + exists "", (String c s); simpl; auto.
    + injection H as Hc Hs.
      destruct (IH _ Hs) as (a & b & -> & Ha & Hb).
      exists (String c a), b; simpl; subst; auto.
Qed.

Lemma startswith_spec (p s : string) :
  startswith p s = true <-> exists suf, s = p ++ suf.
Proof.
  revert s; induction p as [|a p IH]; intros s; simpl.
  - split; [intros _; now exists s | reflexivity].
  - destruct s as [|b s].
    + split; [discriminate | intros [suf H]; discriminate].
    + rewrite andb_true_iff, Ascii.eqb_eq, IH.
      split.
      * intros [-> [suf ->]]; now exists suf.
      * intros [suf H]; injection H as -> ->; split; [reflexivity | now exists suf].
Qed.

Lemma contains_spec (needle hay : string) :
  contains needle hay = true <-> exists pre suf, hay = pre ++ needle ++ suf.
Proof.
  induction hay as [|c hay IH].
  - simpl. rewrite orb_false_r, startswith_spec. split.
    + intros [suf H]; now exists "", suf.
    + intros (pre & suf & H). destruct pre; [now exists suf | discriminate].
  - cbn [contains]. rewrite orb_true_iff, IH, startswith_spec. split.
    + intros [[suf H] | (pre & suf & H)].
      * now exists "", suf.
      * exists (String c pre), suf; simpl; now rewrite H.
    + intros (pre & suf & H). destruct pre as [|d pre]; simpl in H.
      * left; now exists suf.
      * right; injection H as _ H; now exists pre, suf.
Qed.

(** The membership test of the scanner decides the occurrence up to case
    of a token that is its own upper case. *)
Lemma contains_upper (token text : string) :
  upper token = token ->
  contains token (upper text) = true <-> occurs_ci token text.
Proof.
  intros Htok. rewrite contains_spec. unfold occurs_ci. split.
  - intros (pre & suf & H).
    apply upper_split in H as (a & rest & -> & Ha & Hrest).
    apply upper_split in Hrest as (mid & b & -> & Hmid & Hb).
    exists a, mid, b. now rewrite Htok.
  - intros (pre & mid & suf & -> & Hmid).
    exists (upper pre), (upper suf).
    now rewrite !upper_app, Hmid, Htok.
Qed.

End StrFacts.

Lemma fold_left_select {A} (P : A -> bool) (l acc : list A) :
  fold_left (fun acc x => if P x then (acc ++ [x])%list else acc) l acc
  = (acc ++ filter P l)%list.
Proof.
  revert acc; induction l as [|x l IH]; intros acc; simpl.
  - now rewrite app_nil_r.
  - rewrite IH. destruct (P x); [now rewrite <- app_assoc | reflexivity].
Qed.

(** [str.upper] and the ASCII folding. *)
Section Upper.

Variable W : World.

Lemma upper_distr (a b : string) : upper W (a ++ b) = upper W a ++ upper W b.
Proof.
  induction a as [|c a IH]; simpl; [reflexivity|].
  now rewrite IH, append_assoc.
Qed.

Lemma ascii_upper_ascii (c : ascii) :
  (nat_of_ascii (Str.upper_ascii c) <? 128)%nat = true ->
  (nat_of_ascii c <? 128)%nat = true.
Proof. destruct c as [[] [] [] [] [] [] [] []]; intros H; try reflexivity; exact H. Qed.

(** Where the ASCII folding gives an ASCII text, [str.upper] gives the
    same text. *)
Lemma upper_of_ascii_upper (s : string) :
  ascii_text (Str.upper s) = true -> upper W s = Str.upper s.
Proof.
  induction s as [|c s IH]; [reflexivity|].
  cbn [Str.upper ascii_text upper]. intros H.
  apply andb_true_iff in H as [Hc Hs].
  unfold upper_char. rewrite (ascii_upper_ascii c Hc), (IH Hs). reflexivity.
Qed.

Lemma ascii_text_upper (s : string) :
  ascii_text s = true -> ascii_text (Str.upper s) = true.
Proof.
  induction s as [|c s IH]; [reflexivity|].
  cbn [Str.upper ascii_text]. intros H.
  apply andb_true_iff in H as [Hc Hs]. rewrite (IH Hs), andb_true_r.
  revert Hc. destruct c as [[] [] [] [] [] [] [] []]; intros H; try reflexivity; exact H.
Qed.

Lemma upper_of_ascii (s : string) : ascii_text s = true -> upper W s = Str.upper s.
Proof. intros H. apply upper_of_ascii_upper, ascii_text_upper, H. Qed.

Lemma upper_char_fold (c : ascii) :
  upper_char W (Str.upper_ascii c) = upper_char W c.
Proof. destruct c as [[] [] [] [] [] [] [] []]; reflexivity. Qed.

Lemma upper_fold (s : string) : upper W (Str.upper s) = upper W s.
Proof.
  induction s as [|c s IH]; [reflexivity|].
  cbn [Str.upper upper]. now rewrite upper_char_fold, IH.
Qed.

Lemma buttons_to_press_filter (content : string) :
  buttons_to_press W content
  = filter (fun button => Str.contains button (upper W content)) valid_buttons.
Proof. unfold buttons_to_press. now rewrite fold_left_select. Qed.

Lemma valid_buttons_ascii (b : string) : In b valid_buttons -> ascii_text b = true.
Proof.
  unfold valid_buttons; simpl.
  intros H; repeat (destruct H as [<- | H]; [reflexivity|]); contradiction.
Qed.

Lemma valid_buttons_upper (b : string) : In b valid_buttons -> Str.upper b = b.
Proof.
  unfold valid_buttons; simpl.
  intros H; repeat (destruct H as [<- | H]; [reflexivity|]); contradiction.
Qed.

(** A button that occurs in the text up to the case of its letters is
    found in the upper-cased text. *)
Lemma occurs_ci_found (b content : string) :
  In b valid_buttons -> occurs_ci b content ->
  Str.contains b (upper W content) = true.
Proof.
  intros Hin (pre & mid & suf & -> & Hmid).
  rewrite (valid_buttons_upper Hin) in Hmid.
  apply StrFacts.contains_spec.
  exists (upper W pre), (upper W suf).
  rewrite !upper_distr. rewrite (upper_of_ascii_upper mid); rewrite Hmid;
    [reflexivity | now apply valid_buttons_ascii].
Qed.

End Upper.

Lemma valid_buttons_NoDup : NoDup valid_buttons.
Proof.
  unfold valid_buttons.
  repeat (constructor; [simpl; intros H;
                        repeat (destruct H as [H | H]; [discriminate|]); exact H|]).
  constructor.
Qed.

Lemma filter_mem_self (P : string -> bool) (l : list string) :
  filter (fun b => existsb (String.eqb b) (filter P l)) l = filter P l.
Proof.
  apply filter_ext_in_iff. intros b Hb.
  destruct (P b) eqn:HP.
  - apply existsb_exists. exists b. split; [|apply String.eqb_refl].
    apply filter_In; auto.
  - destruct (existsb _ _) eqn:E; [|reflexivity].
    apply existsb_exists in E as (x & Hx & Heq).
    apply String.eqb_eq in Heq; subst x.
    apply filter_In in Hx as [_ Hx]. congruence.
Qed.

(** ** Traces *)

Lemma appended_app (a b : list Event) :
  appended (a ++ b) = (appended a ++ appended b)%list.
Proof.
  induction a as [|ev a IH]; simpl; [reflexivity|].
  destruct ev; simpl; now rewrite ?IH.
Qed.

Lemma teardowns_app (a b : list Event) :
  teardowns (a ++ b) = (teardowns a + teardowns b)%nat.
Proof.
  induction a as [|ev a IH]; simpl; [reflexivity|].
  destruct ev; simpl; now rewrite ?IH.
Qed.

(** ** The monad: inversion, frames and totality *)

Section Effects.

Variable W : World.

Lemma bind_returns {A B} (m : M W A) (k : A -> M W B) st b st' :
  bind m k st = Returns b st' ->
  exists a st1, m st = Returns a st1 /\ k a st1 = Returns b st'.
Proof.
  unfold bind. destruct (m st) as [a st1|e st1]; [eauto | discriminate].
Qed.

Lemma final_state_bind {A B} (m : M W A) (k : A -> M W B) st :
  final_state (bind m k st)
  = match m st with
    | Returns a st1 => final_state (k a st1)
    | Raises _ st1 => st1
    end.
Proof. unfold bind. now destruct (m st). Qed.

Lemma frame_refl (st : SimpleAgent W) : frame st st.
Proof. now constructor. Qed.

Lemma frame_trans (st1 st2 st3 : SimpleAgent W) :
  frame st1 st2 -> frame st2 st3 -> frame st1 st3.
Proof. intros [] []; constructor; congruence. Qed.

Lemma quiet_refl (st : SimpleAgent W) : quiet st st.
Proof. split; [apply frame_refl | reflexivity]. Qed.

Lemma quiet_trans (st1 st2 st3 : SimpleAgent W) :
  quiet st1 st2 -> quiet st2 st3 -> quiet st1 st3.
Proof. intros [F1 H1] [F2 H2]; split; [eapply frame_trans; eauto | congruence]. Qed.

Lemma Quiet_ret {A} (a : A) : Quiet (@ret W A a).
Proof. intros st; apply quiet_refl. Qed.

Lemma Quiet_raise {A} (e : exn) : Quiet (@raise W A e).
Proof. intros st; apply quiet_refl. Qed.

Lemma Quiet_gets {A} (f : SimpleAgent W -> A) : Quiet (gets f).
Proof. intros st; apply quiet_refl. Qed.

Lemma Quiet_bind {A B} (m : M W A) (k : A -> M W B) :
  Quiet m -> (forall a, Quiet (k a)) -> Quiet (bind m k).
Proof.
  intros Hm Hk st. rewrite final_state_bind.
  specialize (Hm st). destruct (m st) as [a st1|e st1]; simpl in Hm; [|exact Hm].
  eapply quiet_trans; [exact Hm | apply Hk].
Qed.

Lemma Quiet_try_except {A} (body : M W A) (handler : exn -> M W A) :
  Quiet body -> (forall e, Quiet (handler e)) -> Quiet (try_except body handler).
Proof.
  intros Hb Hh st. unfold try_except.
  specialize (Hb st). destruct (body st) as [a st1|[cls msg|] st1]; simpl in Hb; auto.
  eapply quiet_trans; [exact Hb | apply Hh].
Qed.

Lemma quiet_log ev (st : SimpleAgent W) : silent ev = true -> quiet st (log ev st).
Proof.
  intros H. split; [|reflexivity].
  constructor; try reflexivity; simpl.
  - rewrite appended_app; destruct ev; simpl; try discriminate; apply app_nil_r.
  - rewrite teardowns_app; destruct ev; simpl; try discriminate; apply Nat.add_0_r.
Qed.

Lemma Quiet_emu_call {A} ev (op : Emu W -> result A * Emu W) :
  silent ev = true -> Quiet (emu_call ev op).
Proof.
  intros H st. unfold emu_call. destruct (op (emulator st)) as [r e'].
  assert (Q : quiet st (set_emulator e' (log ev st))).
  { eapply quiet_trans; [apply (quiet_log _ st H)|].
    split; [constructor|]; reflexivity. }
  destruct r; exact Q.
Qed.

Lemma Quiet_client_chat messages tools : Quiet (@client_chat W messages tools).
Proof.
  intros st. unfold client_chat. cbv zeta.
  set (ev := BackendChat _ _ _ _).
  destruct (backend_chat _ _ _ _ _ _) as [r b'].
  assert (Q : quiet st (set_backend b' (log ev st))).
  { eapply quiet_trans; [apply (quiet_log ev st); reflexivity|].
    split; [constructor|]; reflexivity. }
  destruct r; exact Q.
Qed.

Lemma Total_ret {A} (a : A) : Total (@ret W A a).
Proof. intros st; reflexivity. Qed.

Lemma Total_modify f : Total (@modify W f).
Proof. intros st; reflexivity. Qed.

Lemma Total_bind {A B} (m : M W A) (k : A -> M W B) :
  Total m -> (forall a, Total (k a)) -> Total (bind m k).
Proof.
  intros Hm Hk st. unfold bind. specialize (Hm st).
  destruct (m st) as [a st1|e st1]; [apply Hk | discriminate].
Qed.

Lemma Total_try_except {A} (body : M W A) (handler : exn -> M W A) :
  Soft body -> (forall e, Total (handler e)) -> Total (try_except body handler).
Proof.
  intros Hb Hh st. unfold try_except. specialize (Hb st).
  destruct (body st) as [a st1|[cls msg|] st1]; [reflexivity | apply Hh |].
  now contradiction (Hb st1).
Qed.

Lemma Total_Soft {A} (m : M W A) : Total m -> Soft m.
Proof. intros H st st' E. specialize (H st). now rewrite E in H. Qed.

Lemma Soft_raise {A} cls msg : Soft (@raise W A (Exception cls msg)).
Proof. intros st st'; discriminate. Qed.

Lemma Soft_bind {A B} (m : M W A) (k : A -> M W B) :
  Soft m -> (forall a, Soft (k a)) -> Soft (bind m k).
Proof.
  intros Hm Hk st st'. unfold bind.
  specialize (Hm st). destruct (m st) as [a st1|e st1]; [apply Hk|].
  intros E; injection E as -> ->. now apply (Hm st').
Qed.

Lemma Total_emu_call {A} ev (op : Emu W -> result A * Emu W) :
  (forall e, is_ok (fst (op e)) = true) -> Total (emu_call ev op).
Proof.
  intros H st. unfold emu_call. specialize (H (emulator st)).
  destruct (op (emulator st)) as [[a|e] e']; [reflexivity | discriminate].
Qed.

Lemma Soft_emu_call {A} ev (op : Emu W -> result A * Emu W) :
  (forall e, fst (op e) <> Err KeyboardInterrupt) -> Soft (emu_call ev op).
Proof.
  intros H st st'. unfold emu_call. specialize (H (emulator st)).
  destruct (op (emulator st)) as [[a|e] e']; [discriminate|].
  intros E; injection E as -> _. now apply H.
Qed.

End Effects.

Ltac quiet :=
  repeat first
    [ apply Quiet_ret | apply Quiet_raise | apply Quiet_gets
    | apply Quiet_client_chat
    | apply Quiet_emu_call; reflexivity
    | apply Quiet_try_except
    | apply Quiet_bind
    | match goal with |- forall _, _ => intro end ].

(** ** The backend adapter and the action executor *)

Section Adapter.

Variable W : World.

Lemma Quiet_chat_via_client messages tools :
  Quiet (@chat_via_client W messages tools).
Proof. unfold chat_via_client. quiet. Qed.

Lemma Quiet_press_buttons kwargs : Quiet (@press_buttons W kwargs).
Proof.
  unfold press_buttons.
  destruct (find _ kwargs) as [[k v]|]; [quiet|].
  destruct (assoc "buttons" kwargs); quiet.
Qed.

Lemma Quiet_press kwargs : Quiet (@press W kwargs).
Proof.
  unfold press.
  destruct (find _ kwargs) as [[k v]|]; [quiet|].
  destruct (assoc "button" kwargs); [apply Quiet_press_buttons | quiet].
Qed.

(** The registry holds the two actions and nothing else. *)
Lemma registry_cases (name : string) :
  assoc name (get_available_functions W) = Some (@press_buttons W) \/
  assoc name (get_available_functions W) = Some (@press W) \/
  assoc name (get_available_functions W) = None.
Proof.
  unfold get_available_functions; simpl.
  destruct (String.eqb name "press_buttons"); [now left|].
  destruct (String.eqb name "press"); [right; now left | right; now right].
Qed.

Lemma Quiet_call_one_tool tool : Quiet (call_one_tool (get_available_functions W) tool).
Proof.
  unfold call_one_tool.
  destruct (registry_cases (fn_name (tc_function tool))) as [E|[E|E]]; rewrite E;
    quiet; auto using Quiet_press_buttons, Quiet_press.
Qed.

Lemma Quiet_call_tools calls results :
  Quiet (call_tools (get_available_functions W) calls results).
Proof.
  revert results; induction calls as [|tool rest IH]; intros results; simpl.
  - quiet.
  - apply Quiet_bind; [apply Quiet_call_one_tool | intros entry; apply IH].
Qed.

Lemma Quiet_call_tool_from_response response :
  Quiet (call_tool_from_response response (get_available_functions W)).
Proof.
  unfold call_tool_from_response. apply Quiet_bind.
  - destruct response; simpl; quiet.
  - intros message.
    destruct (message_tool_calls message) as [[|tool rest]|];
      [apply Quiet_ret | apply Quiet_call_tools | apply Quiet_ret].
Qed.

(** A reply object without tool calls gives no result and no effect. *)
Lemma call_tool_from_response_no_calls r funcs (st : SimpleAgent W) :
  tool_requests (Obj r) = [] ->
  call_tool_from_response (Obj r) funcs st = Returns [] st.
Proof.
  unfold tool_requests, call_tool_from_response, bind; simpl.
  destruct (message_tool_calls (response_message r)) as [[|tool rest]|];
    [reflexivity | discriminate | reflexivity].
Qed.

Section Interruptible.

(** The emulator does not interrupt a button press. *)
Hypothesis press_soft :
  forall bs w e, fst (emu_press_buttons W bs w e) <> Err KeyboardInterrupt.

Lemma Soft_press_buttons kwargs : Soft (@press_buttons W kwargs).
Proof.
  unfold press_buttons.
  destruct (find _ kwargs) as [[k v]|]; [apply Soft_raise|].
  destruct (assoc "buttons" kwargs); [|apply Soft_raise].
  apply Soft_emu_call. intros e; apply press_soft.
Qed.

Lemma Soft_press kwargs : Soft (@press W kwargs).
Proof.
  unfold press.
  destruct (find _ kwargs) as [[k v]|]; [apply Soft_raise|].
  destruct (assoc "button" kwargs); [apply Soft_press_buttons | apply Soft_raise].
Qed.

Lemma call_one_tool_answers tool (st : SimpleAgent W) :
  exists entry st',
    call_one_tool (get_available_functions W) tool st = Returns entry st' /\
    answers W tool entry.
Proof.
  unfold call_one_tool, answers.
  set (name := fn_name (tc_function tool)).
  set (args := fn_arguments (tc_function tool)).
  assert (Hcall : forall f : Callable W, Soft (f args) ->
            exists entry st',
              try_except
                (bind (f args) (fun result => ret (mkToolResult name args (Result result))))
                (fun e => ret (mkToolResult name args (Error (str_exn e)))) st
              = Returns entry st' /\
              res_tool entry = name /\ res_args entry = args).
  { intros f Hf. unfold try_except, bind, ret. specialize (Hf st).
    destruct (f args st) as [v st1|[cls msg|] st1]; eauto.
    now contradiction (Hf st1). }
  destruct (registry_cases name) as [E|[E|E]]; rewrite E.
  - destruct (Hcall _ (Soft_press_buttons args)) as (entry & st' & H1 & H2 & H3).
    exists entry, st'. repeat split; auto. discriminate.
  - destruct (Hcall _ (Soft_press args)) as (entry & st' & H1 & H2 & H3).
    exists entry, st'. repeat split; auto. discriminate.
  - eexists _, st. repeat split; reflexivity.
Qed.

Lemma call_tools_answers calls results (st : SimpleAgent W) :
  exists entries st',
    call_tools (get_available_functions W) calls results st
    = Returns (results ++ entries)%list st' /\
    Forall2 (answers W) calls entries.
Proof.
  revert results st; induction calls as [|tool rest IH]; intros results st; simpl.
  - exists [], st. rewrite app_nil_r. split; [reflexivity | constructor].
  - destruct (call_one_tool_answers tool st) as (entry & st1 & H1 & Hans).
    destruct (IH (results ++ [entry])%list st1) as (entries & st' & H2 & Hall).
    exists (entry :: entries), st'. split; [|now constructor].
    unfold bind. rewrite H1, H2. now rewrite <- app_assoc.
Qed.

(** One call: its record, and how it goes on to the calls after it. *)
Lemma call_one_tool_executes tool (st : SimpleAgent W) :
  exists entry st',
    call_one_tool (get_available_functions W) tool st = Returns entry st' /\
    (forall rest entries e',
        executes W rest (emulator st') entries e' ->
        executes W (tool :: rest) (emulator st) (entry :: entries) e') /\
    trace st'
    = (trace st ++ match requested_press tool with Some ev => [ev] | None => [] end)%list.
Proof.
  unfold call_one_tool, get_available_functions. cbn [assoc].
  pose proof (eq_refl (requested_press tool)) as Hreq.
  unfold requested_press at 2 in Hreq. cbv zeta in Hreq.
  set (name := fn_name (tc_function tool)) in *.
  set (args := fn_arguments (tc_function tool)) in *.
  assert (Hrej : requested_press tool = None ->
                 forall msg,
                 exists entry st',
                   Returns (mkToolResult name args (Error msg)) st = Returns entry st' /\
                   (forall rest entries e',
                       executes W rest (emulator st') entries e' ->
                       executes W (tool :: rest) (emulator st) (entry :: entries) e') /\
                   trace st'
                   = (trace st ++
                      match requested_press tool with Some ev => [ev] | None => [] end)%list).
  { intros Hnone msg. eexists _, st. split; [reflexivity|]. split.
    - intros rest entries e' H. now apply executes_rejected.
    - rewrite Hnone. now rewrite app_nil_r. }
  assert (Hpress : forall buttons wait,
             requested_press tool = Some (EmuPress buttons wait) ->
             exists entry st',
               try_except
                 (bind (emu_call (EmuPress buttons wait) (emu_press_buttons W buttons wait))
                    (fun result => ret (mkToolResult name args (Result result))))
                 (fun e => ret (mkToolResult name args (Error (str_exn e)))) st
               = Returns entry st' /\
               (forall rest entries e',
                   executes W rest (emulator st') entries e' ->
                   executes W (tool :: rest) (emulator st) (entry :: entries) e') /\
               trace st'
               = (trace st ++
                  match requested_press tool with Some ev => [ev] | None => [] end)%list).
  { intros buttons wait Hsome. unfold try_except, bind, emu_call.
    pose proof (press_soft buttons wait (emulator st)) as Hsoft.
    destruct (emu_press_buttons W buttons wait (emulator st))
      as [[v|[cls msg|]] e1] eqn:Epress.
    - eexists _, _. split; [reflexivity|]. split; [|now rewrite Hsome].
      intros rest entries e' H. eapply executes_returned; eauto.
    - eexists _, _. split; [reflexivity|]. split; [|now rewrite Hsome].
      intros rest entries e' H. eapply executes_failed; eauto.
    - now contradiction Hsoft. }
  destruct (String.eqb name "press_buttons").
  - unfold press_buttons.
    destruct (find _ args) as [[k v]|]; [now apply Hrej|].
    destruct (assoc "buttons" args) as [buttons|]; [|now apply Hrej].
    apply (Hpress _ _ Hreq).
  - destruct (String.eqb name "press"); [|now apply Hrej].
    unfold press.
    destruct (find _ args) as [[k v]|]; [now apply Hrej|].
    destruct (assoc "button" args) as [button|]; [|now apply Hrej].
    apply (Hpress _ _ Hreq).
Qed.

Lemma call_tools_executes calls results (st : SimpleAgent W) :
  exists entries st',
    call_tools (get_available_functions W) calls results st
    = Returns (results ++ entries)%list st' /\
    executes W calls (emulator st) entries (emulator st') /\
    trace st' = (trace st ++ requested_presses calls)%list.
Proof.
  revert results st; induction calls as [|tool rest IH]; intros results st.
  - exists [], st. rewrite !app_nil_r. split; [reflexivity|].
    split; [constructor | reflexivity].
  - destruct (call_one_tool_executes tool st) as (entry & st1 & H1 & Hex & Htr).
    destruct (IH (results ++ [entry])%list st1) as (entries & st' & H2 & Hrest & Htr').
    exists (entry :: entries), st'. split; [|split].
    + cbn [call_tools]. unfold bind. rewrite H1, H2. now rewrite <- app_assoc.
    + now apply Hex.
    + rewrite Htr', Htr. unfold requested_presses. cbn [flat_map].
      now rewrite app_assoc.
Qed.

End Interruptible.

End Adapter.

Section AdapterClaims.

Variable W : World.

(** Claim C1 (fails on the code).  The reply that [chat_via_client]
    builds when the backend is down is a plain mapping, and
    [call_tool_from_response] reads [response.message] as an attribute:
    for every such reply it raises [AttributeError] instead of returning
    an empty result list, and [_process_response] raises with it, after
    the assistant turn was appended and before the text fallback parser
    is reached. *)
Theorem call_tool_from_response_mapping_raises (st : SimpleAgent W) (text : string) :
  (forall funcs,
      call_tool_from_response (Mapping text) funcs st
      = Raises (Exception "AttributeError" "'dict' object has no attribute 'message'") st) /\
  _process_response (Mapping text) st
  = Raises (Exception "AttributeError" "'dict' object has no attribute 'message'")
           (log (HistoryAppend (mkTurn "assistant" (Text text)))
                (set_message_history
                   (message_history st ++ [mkTurn "assistant" (Text text)]) st)).
Proof. split; [intros funcs|]; reflexivity. Qed.

(** Claim C6.  Provided the emulator does not interrupt a button press:
    every reply with tool calls gets one result entry per call, in the
    order of the calls, each repeating its call's name and arguments.
    The calls are carried out one after the other, each on the emulator
    as the call before it left it, whatever the records of the calls
    before it: an unknown name, arguments that do not fit or an exception
    of the emulator give an error entry, a press that returns gives its
    value, and the emulator is asked for the press of every call that
    names a registered action with fitting arguments, in the order of the
    calls.  In particular an unknown tool followed by [press_buttons]
    gives exactly the error entry and then the success entry. *)
Theorem call_tool_from_response_runs_every_call :
  (forall bs w e, fst (emu_press_buttons W bs w e) <> Err KeyboardInterrupt) ->
  (forall r calls (st : SimpleAgent W),
      message_tool_calls (response_message r) = Some calls ->
      exists entries st',
        call_tool_from_response (Obj r) (get_available_functions W) st
        = Returns entries st' /\
        Forall2 (answers W) calls entries /\
        executes W calls (emulator st) entries (emulator st') /\
        trace st' = (trace st ++ requested_presses calls)%list) /\
  (forall (st : SimpleAgent W) role content unknown args buttons v e',
      assoc unknown (get_available_functions W) = None ->
      emu_press_buttons W buttons (VBool true) (emulator st) = (Ok v, e') ->
      call_tool_from_response
        (Obj (mkResponse
                (mkMessage role content
                   (Some [mkToolCall (mkFunction unknown args);
                          mkToolCall (mkFunction "press_buttons" [("buttons", buttons)])]))))
        (get_available_functions W) st
      = Returns
          [mkToolResult unknown args (Error ("Function " ++ unknown ++ " not found"));
           mkToolResult "press_buttons" [("buttons", buttons)] (Result v)]
          (set_emulator e' (log (EmuPress buttons (VBool true)) st))).
Proof.
  intros Hsoft. split.
  - intros r calls st Hcalls.
    unfold call_tool_from_response, bind; simpl. rewrite Hcalls.
    destruct calls as [|tool rest].
    + exists [], st. split; [reflexivity|]. split; [constructor|].
      split; [constructor | now rewrite app_nil_r].
    + destruct (call_tools_answers Hsoft (tool :: rest) [] st)
        as (entries & st' & H & Hall).
      destruct (call_tools_executes Hsoft (tool :: rest) [] st)
        as (entries' & st'' & H' & Hex & Htr).
      rewrite H in H'. injection H' as <- <-.
      exists entries, st'. split; [exact H|]. split; [exact Hall|].
      split; [exact Hex | exact Htr].
  - intros st role content unknown args buttons v e' Hunknown Hpress.
    remember (get_available_functions W) as registry eqn:Hreg.
    unfold call_tool_from_response, bind; simpl.
    unfold bind, call_one_tool; simpl. rewrite Hunknown; simpl.
    subst registry; simpl.
    unfold try_except, bind, press_buttons; simpl.
    unfold emu_call; simpl. rewrite Hpress. reflexivity.
Qed.

(** Claim C4.  The text fallback parser collects every button token that
    occurs in the text up to the case of its letters, each exactly once,
    in the order of the fixed enumeration; a non-empty collection is
    handed to the emulator as one batch.  What is collected are the tokens
    found in the upper-cased text; for an ASCII text these are exactly the
    tokens that occur in it up to case.  For the text
    "i will press up and then A to confirm" the batch is [A, UP]. *)
Theorem text_fallback_collects_tokens (st : SimpleAgent W) (content : string) :
  (forall b, In b valid_buttons -> occurs_ci b content ->
             In b (buttons_to_press W content)) /\
  (forall b, In b (buttons_to_press W content)
             <-> In b valid_buttons /\ Str.contains b (upper W content) = true) /\
  (ascii_text content = true ->
   forall b, In b (buttons_to_press W content)
             <-> In b valid_buttons /\ occurs_ci b content) /\
  NoDup (buttons_to_press W content) /\
  buttons_to_press W content
  = filter (fun b => existsb (String.eqb b) (buttons_to_press W content)) valid_buttons /\
  trace (final_state (_parse_and_execute_text_response content st))
  = (trace st ++
     match buttons_to_press W content with
     | [] => []
     | bs => [EmuPress (VList (map VStr bs)) (VBool true)]
     end)%list /\
  buttons_to_press W "i will press up and then A to confirm" = ["A"; "UP"].
Proof.
  assert (Hmem : forall b, In b (buttons_to_press W content)
                           <-> In b valid_buttons /\
                               Str.contains b (upper W content) = true).
  { intros b. rewrite buttons_to_press_filter, filter_In. reflexivity. }
  split; [|split; [exact Hmem|split; [|split; [|split; [|split]]]]].
  - intros b Hin Hocc. apply Hmem. split; [exact Hin|].
    now apply occurs_ci_found.
  - intros Hascii b. rewrite Hmem, (upper_of_ascii W content Hascii).
    split; intros [Hin H]; (split; [exact Hin|]);
      apply StrFacts.contains_upper; auto using valid_buttons_upper.
  - rewrite buttons_to_press_filter. apply NoDup_filter, valid_buttons_NoDup.
  - rewrite !buttons_to_press_filter. now rewrite filter_mem_self.
  - cbn [_parse_and_execute_text_response].
    destruct (buttons_to_press W content) as [|b bs]; simpl.
    + now rewrite app_nil_r.
    + unfold bind, emu_call.
      destruct (emu_press_buttons _ _ _ _) as [[v|e] e']; reflexivity.
  - reflexivity.
Qed.

End AdapterClaims.

(** ** The agent: what each operation does to the history *)

Section History.

Variable W : World.

Lemma quiet_grows (st st' : SimpleAgent W) : quiet st st' -> grows st st' [].
Proof. intros [[] H]; constructor; rewrite ?app_nil_r; assumption. Qed.

Lemma grows_trans (st1 st2 st3 : SimpleAgent W) ts us :
  grows st1 st2 ts -> grows st2 st3 us -> grows st1 st3 (ts ++ us).
Proof.
  intros [] []; constructor; try congruence.
  - rewrite app_assoc; congruence.
  - rewrite app_assoc; congruence.
Qed.

Lemma grows_quiet_l (st1 st2 st3 : SimpleAgent W) ts :
  quiet st1 st2 -> grows st2 st3 ts -> grows st1 st3 ts.
Proof. intros Q G. apply (grows_trans (quiet_grows Q) G). Qed.

Lemma grows_quiet_r (st1 st2 st3 : SimpleAgent W) ts :
  grows st1 st2 ts -> quiet st2 st3 -> grows st1 st3 ts.
Proof.
  intros G Q. rewrite <- (app_nil_r ts). apply (grows_trans G (quiet_grows Q)).
Qed.

Lemma bind_returns_quiet {A B} (m : M W A) (k : A -> M W B) st b st' :
  Quiet m ->
  bind m k st = Returns b st' ->
  exists a st1, m st = Returns a st1 /\ quiet st st1 /\ k a st1 = Returns b st'.
Proof.
  intros Q H. apply bind_returns in H as (a & st1 & Hm & Hk).
  exists a, st1. split; [exact Hm | split; [|exact Hk]].
  specialize (Q st). now rewrite Hm in Q.
Qed.

Lemma history_append_grows t (st st' : SimpleAgent W) :
  history_append t st = Returns tt st' -> grows st st' [t].
Proof.
  intros H. injection H as <-.
  constructor; try reflexivity; simpl.
  - rewrite teardowns_app; simpl; apply Nat.add_0_r.
  - now rewrite appended_app.
Qed.

Lemma fold_left_snoc_map {A B} (f : A -> B) (l : list A) (acc : list B) :
  fold_left (fun acc x => (acc ++ [f x])%list) l acc = (acc ++ map f l)%list.
Proof.
  revert acc; induction l as [|x l IH]; intros acc; simpl.
  - now rewrite app_nil_r.
  - now rewrite IH, <- app_assoc.
Qed.

(** The flattened history: the system prompt, then one message per turn. *)
Lemma format_messages (st : SimpleAgent W) :
  _format_messages_for_ollama st
  = Returns (mkMsg "system" SYSTEM_PROMPT ::
             map (fun msg => mkMsg (turn_role msg) (flatten_content (turn_content msg)))
                 (message_history st)) st.
Proof.
  unfold _format_messages_for_ollama, bind, gets, ret.
  now rewrite (fold_left_snoc_map
                 (fun msg => mkMsg (turn_role msg) (flatten_content (turn_content msg)))).
Qed.

Lemma Quiet_format : Quiet (@_format_messages_for_ollama W).
Proof. intros st. rewrite format_messages. apply quiet_refl. Qed.

Lemma Quiet_parse content : Quiet (@_parse_and_execute_text_response W content).
Proof.
  unfold _parse_and_execute_text_response.
  destruct content as [content|]; [|apply Quiet_raise].
  destruct (buttons_to_press W content); quiet.
Qed.

Lemma Quiet_request_summary : Quiet (@request_summary W).
Proof.
  unfold request_summary.
  apply Quiet_bind; [apply Quiet_emu_call; reflexivity | intros screenshot].
  apply Quiet_bind; [apply Quiet_format | intros messages].
  apply Quiet_bind; [apply Quiet_chat_via_client | intros response].
  apply Quiet_ret.
Qed.

Lemma get_next_action_grows (st st' : SimpleAgent W) response :
  _get_next_action st = Returns response st' ->
  exists t, grows st st' [t] /\ turn_role t = "user".
Proof.
  unfold _get_next_action. intros H.
  apply bind_returns_quiet in H as (screenshot & st1 & _ & Q1 & H);
    [|apply Quiet_emu_call; reflexivity].
  apply bind_returns_quiet in H as (coordinates & st2 & _ & Q2 & H);
    [|apply Quiet_emu_call; reflexivity].
  apply bind_returns_quiet in H as (location & st3 & _ & Q3 & H);
    [|apply Quiet_emu_call; reflexivity].
  apply bind_returns in H as ([] & st4 & Happ & H).
  apply history_append_grows in Happ as G.
  apply bind_returns_quiet in H as (messages & st5 & _ & Q5 & H); [|apply Quiet_format].
  pose proof (Quiet_chat_via_client messages (Some AVAILABLE_TOOLS) st5) as Q6.
  rewrite H in Q6; simpl in Q6.
  eexists; split.
  - eapply grows_quiet_l; [exact Q1|].
    eapply grows_quiet_l; [exact Q2|].
    eapply grows_quiet_l; [exact Q3|].
    eapply grows_quiet_r; [exact G|].
    eapply quiet_trans; [exact Q5 | exact Q6].
  - reflexivity.
Qed.

Lemma process_response_grows (st st' : SimpleAgent W) response :
  _process_response response st = Returns tt st' ->
  grows st st' [mkTurn "assistant" (Text (response_content response))].
Proof.
  unfold _process_response. intros H.
  apply bind_returns in H as ([] & st1 & Happ & H).
  apply history_append_grows in Happ as G.
  apply bind_returns_quiet in H as (results & st2 & _ & Q2 & H);
    [|apply Quiet_call_tool_from_response].
  eapply grows_quiet_r; [exact G|].
  eapply quiet_trans; [exact Q2|].
  destruct results as [|entry results].
  - pose proof (Quiet_parse (response_content response) st2) as Q3.
    rewrite H in Q3. exact Q3.
  - injection H as <-. apply quiet_refl.
Qed.

(** One step appends an observation turn and a reply turn. *)
Lemma step_grows (st st' : SimpleAgent W) :
  step st = Returns tt st' ->
  exists t1 t2,
    grows st st' [t1; t2] /\ turn_role t1 = "user" /\ turn_role t2 = "assistant".
Proof.
  unfold step. intros H.
  apply bind_returns in H as (response & st1 & H1 & H2).
  apply get_next_action_grows in H1 as (t1 & G1 & R1).
  apply process_response_grows in H2.
  exists t1, (mkTurn "assistant" (Text (response_content response))).
  split; [apply (grows_trans G1 H2) | split; [exact R1 | reflexivity]].
Qed.

(** Summarization, however it ends: no turn is appended, the flags stay,
    and the history is either untouched (it raised) or the one synthetic
    turn (it returned). *)
Lemma summarize_history_outcome (st : SimpleAgent W) :
  frame st (final_state (summarize_history st)) /\
  match summarize_history st with
  | Returns _ st' =>
      exists summary_text screenshot_b64,
        message_history st' = [summary_turn (max_history st) summary_text screenshot_b64]
  | Raises _ st' => message_history st' = message_history st
  end.
Proof.
  pose proof (Quiet_request_summary st) as [F Hh].
  unfold summarize_history, bind.
  destruct (request_summary st) as [[screenshot_b64 summary_text] st1|e st1];
    simpl in *; [|auto].
  split.
  - destruct F; constructor; assumption.
  - exists (format_text summary_text), screenshot_b64.
    now rewrite (frame_max_history F).
Qed.

End History.

(** ** The events that each operation logs *)

Section Events.

Variable W : World.

Lemma Adds_ret {A} P (a : A) : Adds P (@ret W A a).
Proof. intros st. exists []. now rewrite app_nil_r. Qed.

Lemma Adds_raise {A} P (e : exn) : Adds P (@raise W A e).
Proof. intros st. exists []. now rewrite app_nil_r. Qed.

Lemma Adds_bind {A B} P (m : M W A) (k : A -> M W B) :
  Adds P m -> (forall a, Adds P (k a)) -> Adds P (bind m k).
Proof.
  intros Hm Hk st. rewrite final_state_bind.
  destruct (Hm st) as (evs1 & H1 & F1).
  destruct (m st) as [a st1|e st1]; simpl in H1; [|now exists evs1].
  destruct (Hk a st1) as (evs2 & H2 & F2).
  exists (evs1 ++ evs2)%list. split; [|now apply Forall_app].
  now rewrite H2, H1, app_assoc.
Qed.

Lemma Adds_try_except {A} P (body : M W A) (handler : exn -> M W A) :
  Adds P body -> (forall e, Adds P (handler e)) -> Adds P (try_except body handler).
Proof.
  intros Hb Hh st. unfold try_except.
  destruct (Hb st) as (evs1 & H1 & F1).
  destruct (body st) as [a st1|[cls msg|] st1]; simpl in H1;
    [now exists evs1 | | now exists evs1].
  destruct (Hh (Exception cls msg) st1) as (evs2 & H2 & F2).
  exists (evs1 ++ evs2)%list. split; [|now apply Forall_app].
  now rewrite H2, H1, app_assoc.
Qed.

Lemma Adds_emu_call {A} (P : Event -> Prop) ev (op : Emu W -> result A * Emu W) :
  P ev -> Adds P (emu_call ev op).
Proof.
  intros HP st. exists [ev]. split; [|now constructor].
  unfold emu_call. destruct (op (emulator st)) as [[a|e] e']; reflexivity.
Qed.

Lemma Adds_history_append (P : Event -> Prop) t :
  P (HistoryAppend t) -> Adds P (@history_append W t).
Proof. intros HP st. exists [HistoryAppend t]. split; [reflexivity | now constructor]. Qed.

Lemma Adds_press_buttons kwargs : Adds not_chat (@press_buttons W kwargs).
Proof.
  unfold press_buttons.
  destruct (find _ kwargs) as [[k v]|]; [apply Adds_raise|].
  destruct (assoc "buttons" kwargs); [|apply Adds_raise].
  now apply Adds_emu_call.
Qed.

Lemma Adds_press kwargs : Adds not_chat (@press W kwargs).
Proof.
  unfold press.
  destruct (find _ kwargs) as [[k v]|]; [apply Adds_raise|].
  destruct (assoc "button" kwargs); [apply Adds_press_buttons | apply Adds_raise].
Qed.

Lemma Adds_call_tools calls results :
  Adds not_chat (call_tools (get_available_functions W) calls results).
Proof.
  revert results. induction calls as [|tool rest IH]; intros results; cbn [call_tools].
  - apply Adds_ret.
  - apply Adds_bind; [|intros entry; apply IH].
    unfold call_one_tool.
    destruct (registry_cases W (fn_name (tc_function tool))) as [E|[E|E]]; rewrite E.
    + apply Adds_try_except; [|intros e; apply Adds_ret].
      apply Adds_bind; [apply Adds_press_buttons | intros v; apply Adds_ret].
    + apply Adds_try_except; [|intros e; apply Adds_ret].
      apply Adds_bind; [apply Adds_press | intros v; apply Adds_ret].
    + apply Adds_ret.
Qed.

(** Handling a reply asks nothing of the backend. *)
Lemma Adds_process_response response :
  Adds not_chat (@_process_response W response).
Proof.
  unfold _process_response.
  apply Adds_bind; [now apply Adds_history_append | intros _].
  apply Adds_bind.
  - unfold call_tool_from_response.
    apply Adds_bind; [destruct response; [apply Adds_ret | apply Adds_raise]|].
    intros message.
    destruct (message_tool_calls message) as [[|tool rest]|];
      [apply Adds_ret | apply Adds_call_tools | apply Adds_ret].
  - intros results. destruct results; [|apply Adds_ret].
    unfold _parse_and_execute_text_response.
    destruct (response_content response) as [content|]; [|apply Adds_raise].
    destruct (buttons_to_press W content); [apply Adds_ret|].
    apply Adds_bind; [now apply Adds_emu_call | intros _; apply Adds_ret].
Qed.

Lemma Adds_start : Adds not_chat (@start W).
Proof.
  unfold start, _send_initial_observation.
  apply Adds_bind; [now apply Adds_emu_call | intros _].
  apply Adds_bind; [intros st; exists []; now rewrite app_nil_r | intros _].
  apply Adds_bind; [now apply Adds_emu_call | intros screenshot].
  now apply Adds_history_append.
Qed.

Lemma summaries_app (a b : list Event) :
  summaries (a ++ b) = (summaries a + summaries b)%nat.
Proof. unfold summaries. now rewrite filter_app, length_app. Qed.

(** The trace of the text fallback: one press of the buttons found, if
    any. *)
Lemma parse_trace (content : string) (st : SimpleAgent W) :
  trace (final_state (_parse_and_execute_text_response content st))
  = (trace st ++
     match buttons_to_press W content with
     | [] => []
     | bs => [EmuPress (VList (map VStr bs)) (VBool true)]
     end)%list.
Proof.
  cbn [_parse_and_execute_text_response].
  destruct (buttons_to_press W content) as [|b bs]; simpl.
  - now rewrite app_nil_r.
  - unfold bind, emu_call.
    destruct (emu_press_buttons _ _ _ _) as [[v|e] e']; reflexivity.
Qed.

(** [_get_next_action] when the emulator shows the screen, the
    coordinates and the location: the observation is appended, the
    flattened history is sent with the declared tools, and the answer of
    the backend decides the outcome. *)
Lemma get_next_action_outcome (st : SimpleAgent W) img e1 c e2 l e3 res b' :
  emu_get_screenshot W (emulator st) = (Ok img, e1) ->
  emu_get_coordinates W e1 = (Ok c, e2) ->
  emu_get_location W e2 = (Ok l, e3) ->
  backend_chat W (model_name (ollama st))
    (sent_messages (message_history st ++ [observation_turn W img c l]))
    (max_tokens (ollama st)) (Some AVAILABLE_TOOLS) (client (ollama st)) = (res, b') ->
  exists st1,
    _get_next_action st
    = match res with
      | Ok r => Returns (Obj r) st1
      | Err (Exception cls msg) => Returns (Mapping ("Error: " ++ msg)) st1
      | Err KeyboardInterrupt => Raises KeyboardInterrupt st1
      end /\
    grows st st1 [observation_turn W img c l] /\
    emulator st1 = e3 /\
    client (ollama st1) = b' /\
    trace st1
    = (trace st ++
       [EmuScreenshot; EmuCoordinates; EmuLocation;
        HistoryAppend (observation_turn W img c l);
        step_request st (observation_turn W img c l)])%list.
Proof.
  intros E1 E2 E3 Echat.
  unfold _get_next_action, bind, emu_call.
  rewrite E1. cbn [emulator set_emulator log]. rewrite E2.
  cbn [emulator set_emulator log]. rewrite E3.
  cbn [history_append modify]. rewrite format_messages.
  unfold chat_via_client, try_except, bind, client_chat. cbv zeta.
  cbn [ollama model_name max_tokens client message_history trace emulator running
       max_history set_emulator set_message_history log].
  fold (observation_turn W img c l).
  fold (sent_messages (message_history st ++ [observation_turn W img c l])).
  change (tools_or_none (Some AVAILABLE_TOOLS)) with (Some AVAILABLE_TOOLS).
  rewrite Echat.
  eexists. split; [destruct res as [r|[cls msg|]]; reflexivity|].
  split; [|split; [reflexivity | split; [reflexivity|]]].
  - constructor; try reflexivity; simpl;
      rewrite ?teardowns_app, ?appended_app; simpl;
      rewrite ?Nat.add_0_r, ?app_nil_r; reflexivity.
  - cbn [trace set_backend log set_message_history set_emulator]. unfold step_request.
    now rewrite <- !app_assoc.
Qed.

Lemma Adds_weaken {A} (P Q : Event -> Prop) (m : M W A) :
  (forall ev, P ev -> Q ev) -> Adds P m -> Adds Q m.
Proof.
  intros HPQ Hm st. destruct (Hm st) as (evs & Htr & Hevs).
  exists evs. split; [exact Htr|]. revert Hevs. now apply Forall_impl.
Qed.

Lemma summaries_none (evs : list Event) :
  Forall (fun ev => is_summary_request ev = false) evs -> summaries evs = O.
Proof.
  unfold summaries. induction 1 as [|ev evs Hev _ IH]; [reflexivity|].
  simpl. now rewrite Hev.
Qed.

Lemma is_summary_request_snoc m msgs n :
  is_summary_request (BackendChat m (msgs ++ [mkMsg "user" SUMMARY_PROMPT]) n None) = true.
Proof.
  unfold is_summary_request. rewrite rev_app_distr. cbn [rev app].
  now rewrite !String.eqb_refl.
Qed.

(** A step asks no summary of the backend. *)
Lemma step_summaries (st : SimpleAgent W) :
  summaries (trace (final_state (step st))) = summaries (trace st).
Proof.
  assert (Hstep : Adds (fun ev => is_summary_request ev = false) (@step W)).
  { unfold step, _get_next_action.
    apply Adds_bind;
      [|intros response; apply (Adds_weaken (P := not_chat));
        [intros []; simpl; auto; contradiction | apply Adds_process_response]].
    apply Adds_bind; [now apply Adds_emu_call | intros img].
    apply Adds_bind; [now apply Adds_emu_call | intros c].
    apply Adds_bind; [now apply Adds_emu_call | intros l].
    apply Adds_bind; [now apply Adds_history_append | intros _].
    apply Adds_bind;
      [intros s; rewrite format_messages; exists []; now rewrite app_nil_r
      |intros messages].
    intros s. unfold chat_via_client, try_except, bind, client_chat. cbv zeta.
    eexists [_]. split.
    - destruct (backend_chat _ _ _ _ _ _) as [[r|[cls msg|]] b']; reflexivity.
    - constructor; [reflexivity | constructor]. }
  destruct (Hstep st) as (evs & -> & Hevs).
  now rewrite summaries_app, (summaries_none Hevs), Nat.add_0_r.
Qed.

End Events.

(** ** Summarization *)

Section Summarize.

Variable W : World.

(** With a screenshot at hand and a backend call that is not interrupted,
    summarization returns and leaves the one synthetic turn. *)
Lemma summarize_history_returns (st : SimpleAgent W) img e' :
  emu_get_screenshot W (emulator st) = (Ok img, e') ->
  (forall msgs,
      fst (backend_chat W (model_name (ollama st)) msgs (max_tokens (ollama st)) None
             (client (ollama st))) <> Err KeyboardInterrupt) ->
  exists reply st',
    summarize_history st = Returns tt st' /\
    message_history st'
    = [summary_turn (max_history st) (format_text (response_content reply))
         (get_screenshot_base64 W img (Some 2))] /\
    frame st st'.
Proof.
  intros Hshot Hsoft.
  pose proof (summarize_history_outcome st) as [F _].
  unfold summarize_history, request_summary, bind, emu_call in *.
  rewrite Hshot in *. rewrite format_messages in *.
  unfold chat_via_client, try_except, bind, client_chat in *. cbv zeta in *.
  simpl in *.
  match goal with
  | |- context [backend_chat W ?m ?msgs ?n ?t ?b] =>
      specialize (Hsoft msgs); destruct (backend_chat W m msgs n t b) as [[r|[cls msg|]] b']
  end; simpl in *.
  - exists (Obj r). eexists. split; [reflexivity|]. split; [reflexivity | exact F].
  - exists (Mapping ("Error: " ++ msg)). eexists.
    split; [reflexivity|]. split; [reflexivity | exact F].
  - now contradiction Hsoft.
Qed.

(** The first half of summarization: the screenshot request, then one
    backend request made of the flattened stored history and the
    summarization request, without tools. *)
Lemma request_summary_trace (st : SimpleAgent W) img e' :
  emu_get_screenshot W (emulator st) = (Ok img, e') ->
  trace (final_state (request_summary st))
  = (trace st ++
     [EmuScreenshot;
      BackendChat (model_name (ollama st))
        ((mkMsg "system" SYSTEM_PROMPT ::
          map (fun msg => mkMsg (turn_role msg) (flatten_content (turn_content msg)))
              (message_history st)) ++ [mkMsg "user" SUMMARY_PROMPT])
        (max_tokens (ollama st)) None])%list.
Proof.
  intros Hshot.
  unfold request_summary, bind, emu_call. rewrite Hshot. rewrite format_messages.
  unfold chat_via_client, try_except, bind, client_chat. cbv zeta. simpl.
  destruct (backend_chat _ _ _ _ _ _) as [[r|[cls msg|]] b']; simpl;
    now rewrite <- app_assoc.
Qed.

Lemma summarize_if_needed_frame (st : SimpleAgent W) :
  frame st (final_state (summarize_if_needed st)).
Proof.
  unfold summarize_if_needed.
  destruct (_ >? _); [apply summarize_history_outcome | apply frame_refl].
Qed.

End Summarize.

Section SummarizeClaims.

Variable W : World.

(** Claim C8.  Given a screenshot and an uninterrupted backend call,
    [summarize_history] returns, and the one turn it leaves has exactly
    one image part and three text parts, whatever the history was; its
    first part is the summary, annotated with [max_history] in decimal. *)
Theorem summary_turn_shape (st : SimpleAgent W) :
  is_ok (fst (emu_get_screenshot W (emulator st))) = true ->
  (forall msgs,
      fst (backend_chat W (model_name (ollama st)) msgs (max_tokens (ollama st)) None
             (client (ollama st))) <> Err KeyboardInterrupt) ->
  exists st' t summary_text,
    summarize_history st = Returns tt st' /\
    message_history st' = [t] /\
    length (filter is_image (parts_of t)) = 1%nat /\
    length (filter is_text (parts_of t)) = 3%nat /\
    (2 <= length (filter is_text (parts_of t)))%nat /\
    hd_error (parts_of t)
    = Some (TextPart ("CONVERSATION HISTORY SUMMARY (representing " ++
                      Str.of_Z (max_history st) ++ " previous messages): " ++
                      summary_text)).
Proof.
  intros Hshot Hsoft.
  destruct (emu_get_screenshot W (emulator st)) as [[img|e] e'] eqn:Eshot;
    [|discriminate].
  destruct (summarize_history_returns st Eshot Hsoft) as (reply & st' & Hret & Hh & _).
  exists st', (summary_turn (max_history st) (format_text (response_content reply))
                 (get_screenshot_base64 W img (Some 2))),
         (format_text (response_content reply)).
  split; [exact Hret|]. split; [exact Hh|]. simpl. repeat split; lia.
Qed.

(** Claim C9.  Whichever way the part of [summarize_history] that comes
    before the replacement ends, the stored history is what it was; the
    backend is sent the flattening of that stored history followed by the
    summarization request, which is a message of the request only.  No
    turn is ever appended to the stored history by [summarize_history]:
    it raises and leaves the history as it was, or returns and leaves the
    one synthetic turn, which is not the request. *)
Theorem summarize_request_not_stored (st : SimpleAgent W) :
  message_history (final_state (request_summary st)) = message_history st /\
  (forall img e',
      emu_get_screenshot W (emulator st) = (Ok img, e') ->
      trace (final_state (request_summary st))
      = (trace st ++
         [EmuScreenshot;
          BackendChat (model_name (ollama st))
            ((mkMsg "system" SYSTEM_PROMPT ::
              map (fun msg => mkMsg (turn_role msg) (flatten_content (turn_content msg)))
                  (message_history st)) ++ [mkMsg "user" SUMMARY_PROMPT])
            (max_tokens (ollama st)) None])%list) /\
  appended (trace (final_state (summarize_history st))) = appended (trace st) /\
  match summarize_history st with
  | Returns _ st' =>
      exists summary_text screenshot_b64,
        message_history st' = [summary_turn (max_history st) summary_text screenshot_b64] /\
        ~ In (mkTurn "user" (Text SUMMARY_PROMPT)) (message_history st')
  | Raises _ st' => message_history st' = message_history st
  end.
Proof.
  split; [apply Quiet_request_summary|].
  split; [intros img e'; apply request_summary_trace|].
  destruct (summarize_history_outcome st) as [F H].
  split; [apply F|].
  destruct (summarize_history st) as [[] st'|e st']; [|exact H].
  destruct H as (text & shot & H). exists text, shot. split; [exact H|].
  rewrite H. intros [Heq|[]]. discriminate.
Qed.

End SummarizeClaims.

(** ** The run loop *)

Section Run.

Variable W : World.

Lemma send_initial_observation_grows (st st' : SimpleAgent W) :
  _send_initial_observation st = Returns tt st' ->
  exists t, grows st st' [t] /\ turn_role t = "user".
Proof.
  unfold _send_initial_observation. intros H.
  apply bind_returns_quiet in H as (screenshot & st1 & _ & Q1 & H);
    [|apply Quiet_emu_call; reflexivity].
  apply history_append_grows in H.
  eexists; split.
  - eapply grows_quiet_l; [exact Q1 | exact H].
  - reflexivity.
Qed.

(** After the prologue of [run], the agent is running and its history
    has one more turn, the initial observation. *)
Lemma start_grows (st st' : SimpleAgent W) :
  start st = Returns tt st' ->
  exists t,
    grows (set_running true st) st' [t] /\ turn_role t = "user".
Proof.
  unfold start. intros H.
  apply bind_returns_quiet in H as ([] & st1 & _ & Q1 & H);
    [|apply Quiet_emu_call; reflexivity].
  apply bind_returns in H as ([] & st2 & Hmod & H).
  injection Hmod as <-.
  apply send_initial_observation_grows in H as (t & G & R).
  exists t. split; [|exact R].
  destruct Q1 as [[] Hh]. destruct G. constructor; simpl in *; congruence.
Qed.

(** More fuel than the step budget leaves is never used: the loop ends by
    its own condition. *)
Lemma run_loop_fuel (fuel extra : nat) (num_steps steps_completed : Z) (st : SimpleAgent W) :
  num_steps - steps_completed <= Z.of_nat fuel ->
  run_loop (fuel + extra) num_steps steps_completed st
  = run_loop fuel num_steps steps_completed st.
Proof.
  revert steps_completed st.
  induction fuel as [|fuel IH]; intros k st Hle.
  - destruct extra as [|extra]; [reflexivity|]. simpl.
    replace (k <? num_steps) with false by (symmetry; apply Z.ltb_ge; lia).
    now rewrite andb_false_r.
  - simpl. destruct (running st && (k <? num_steps)); [|reflexivity].
    unfold bind. destruct (step st) as [[] st1|e st1]; [|reflexivity].
    destruct (summarize_if_needed st1) as [[] st2|e st2]; [|reflexivity].
    apply IH. lia.
Qed.

(** The states of [run] after its loop were passed through by the loop. *)
Lemma run_loop_reaches (st0 : SimpleAgent W) fuel num_steps :
  forall steps_completed st result st',
    reaches st0 AtLoopTest st ->
    run_loop fuel num_steps steps_completed st = Returns result st' ->
    reaches st0 AtLoopTest st'.
Proof.
  induction fuel as [|fuel IH]; intros k st result st' Hreach Hrun; simpl in Hrun.
  - injection Hrun as _ <-. exact Hreach.
  - destruct (running st) eqn:Erun; simpl in Hrun;
      [|injection Hrun as _ <-; exact Hreach].
    destruct (k <? num_steps); [|injection Hrun as _ <-; exact Hreach].
    apply bind_returns in Hrun as ([] & st1 & Hstep & Hrun).
    apply bind_returns in Hrun as ([] & st2 & Hsum & Hrun).
    eapply IH; [|exact Hrun].
    eapply reach_checked; [|exact Hsum].
    eapply reach_step; eauto.
Qed.

Lemma odd_succ_succ (n : Z) : Z.odd (n + 2) = Z.odd n.
Proof. replace (n + 2) with (Z.succ (Z.succ n)) by lia. apply Z.odd_succ_succ. Qed.

Lemma odd_le_even (n m : Z) : Z.odd n = true -> n <= 2 * m -> n <= 2 * m - 1.
Proof.
  intros Hodd Hle. destruct (Z.eq_dec n (2 * m)) as [->|]; [|lia].
  rewrite Z.odd_mul in Hodd. discriminate.
Qed.

(** The invariant of the loop: at both program points the history has an
    odd length; it is at most [2 * max_history] when the loop condition
    is tested and at most [2 * max_history + 1] at the summarization
    check. *)
Lemma reaches_invariant (st0 : SimpleAgent W) p st :
  message_history st0 = [] ->
  1 <= max_history st0 ->
  reaches st0 p st ->
  max_history st = max_history st0 /\
  Z.odd (history_length st) = true /\
  match p with
  | AtLoopTest => history_length st <= 2 * max_history st
  | AtCheck => history_length st <= 2 * max_history st + 1
  end.
Proof.
  intros Hfresh Hmax Hreach. unfold history_length.
  induction Hreach as [st Hstart | st st' Hreach IH Hrun Hstep | st st' Hreach IH Hsum].
  - apply start_grows in Hstart as (t & G & _).
    assert (Hlen : length (message_history st) = 1%nat)
      by (rewrite (grows_history G); simpl; now rewrite Hfresh).
    assert (Hm : max_history st = max_history st0) by apply (grows_max_history G).
    rewrite Hlen, Hm. change (Z.of_nat 1) with 1.
    split; [reflexivity | split; [reflexivity | lia]].
  - destruct IH as (Hm & Hodd & Hle).
    apply step_grows in Hstep as (t1 & t2 & G & _).
    assert (Hlen : Z.of_nat (length (message_history st'))
                   = Z.of_nat (length (message_history st)) + 2)
      by (rewrite (grows_history G), length_app, Nat2Z.inj_add; reflexivity).
    rewrite Hlen, (grows_max_history G), odd_succ_succ.
    split; [exact Hm | split; [exact Hodd|]].
    apply odd_le_even in Hle; [lia | exact Hodd].
  - destruct IH as (Hm & Hodd & Hle).
    pose proof (summarize_if_needed_frame st) as F. rewrite Hsum in F; simpl in F.
    rewrite (frame_max_history F).
    unfold summarize_if_needed in Hsum.
    destruct (_ >? _) eqn:E.
    + destruct (summarize_history_outcome st) as [_ H]. rewrite Hsum in H.
      destruct H as (text & shot & ->).
      change (Z.of_nat (length [summary_turn (max_history st) text shot])) with 1.
      split; [exact Hm | split; [reflexivity | lia]].
    + injection Hsum as <-. split; [exact Hm | split; [exact Hodd|]].
      rewrite Z.gtb_ltb, Z.ltb_ge in E. lia.
Qed.

(** The prologue of [run] when the emulator answers. *)
Lemma start_returns (st : SimpleAgent W) e1 img e2 :
  emu_initialize W (emulator st) = (Ok tt, e1) ->
  emu_get_screenshot W e1 = (Ok img, e2) ->
  exists st',
    start st = Returns tt st' /\
    trace st'
    = (trace st ++ [EmuInitialize; EmuScreenshot; HistoryAppend (initial_turn W img)])%list /\
    message_history st' = (message_history st ++ [initial_turn W img])%list.
Proof.
  intros Hinit Hshot.
  unfold start, _send_initial_observation, bind, emu_call.
  rewrite Hinit. cbn [modify emulator set_emulator set_running log].
  rewrite Hshot. eexists. split; [reflexivity|].
  split; [|reflexivity]. simpl. now rewrite <- !app_assoc.
Qed.

(** The summarization check: beyond [2 * max_history] turns a summary is
    asked of the backend and one turn is left; otherwise nothing happens. *)
Lemma summarize_if_needed_summaries (st st' : SimpleAgent W) :
  summarize_if_needed st = Returns tt st' ->
  (history_length st > 2 * max_history st ->
   summaries (trace st') = S (summaries (trace st)) /\ history_length st' = 1) /\
  (history_length st <= 2 * max_history st -> st' = st).
Proof.
  unfold summarize_if_needed, history_length. intros Hsum.
  destruct (_ >? _) eqn:E.
  - apply Z.gtb_lt in E. split; [intros _ | lia].
    destruct (emu_get_screenshot W (emulator st)) as [[img|e] e'] eqn:Eshot.
    + pose proof (request_summary_trace st Eshot) as Htr.
      unfold summarize_history in Hsum.
      apply bind_returns in Hsum as ([shot text] & st1 & Hreq & Hmod).
      rewrite Hreq in Htr. cbn [final_state] in Htr.
      injection Hmod as <-. cbn [trace set_message_history message_history length].
      split; [|reflexivity].
      rewrite Htr, summaries_app. unfold summaries at 2. cbn [filter].
      change (is_summary_request EmuScreenshot) with false. cbv iota.
      rewrite is_summary_request_snoc. cbn [length]. lia.
    + unfold summarize_history, request_summary, bind, emu_call in Hsum.
      rewrite Eshot in Hsum. discriminate.
  - rewrite Z.gtb_ltb, Z.ltb_ge in E. split; [lia|].
    intros _. now injection Hsum as <-.
Qed.

(** The loop counts: from a history of [1 + 2 * j] turns with [j] below
    [max_history], the remaining steps add a summary each time [j] comes
    to [max_history]. *)
Lemma run_loop_summaries (fuel : nat) (num_steps : Z) :
  forall steps_completed j (st st' : SimpleAgent W) result,
    running st = true ->
    0 <= j < max_history st ->
    history_length st = 1 + 2 * j ->
    Z.of_nat fuel = num_steps - steps_completed ->
    run_loop fuel num_steps steps_completed st = Returns result st' ->
    Z.of_nat (summaries (trace st'))
    = Z.of_nat (summaries (trace st)) + (j + (num_steps - steps_completed)) / max_history st /\
    history_length st' = 1 + 2 * ((j + (num_steps - steps_completed)) mod max_history st).
Proof.
  induction fuel as [|fuel IH]; intros k j st st' result Hrun Hj Hlen Hfuel H.
  - injection H as _ <-.
    replace (num_steps - k) with 0 by (simpl in Hfuel; lia).
    rewrite Z.add_0_r, Z.div_small, Z.mod_small by lia. lia.
  - cbn [run_loop] in H. rewrite Hrun in H.
    replace (k <? num_steps) with true in H by (symmetry; apply Z.ltb_lt; lia).
    cbn [andb] in H.
    apply bind_returns in H as ([] & st1 & Hstep & H).
    apply bind_returns in H as ([] & st2 & Hsum & H).
    pose proof (step_summaries st) as Hs1. rewrite Hstep in Hs1. cbn [final_state] in Hs1.
    apply step_grows in Hstep as (t1 & t2 & G & _).
    assert (Hlen1 : history_length st1 = 1 + 2 * (j + 1)).
    { unfold history_length in *.
      rewrite (grows_history G), length_app, Nat2Z.inj_add. cbn [length]. lia. }
    pose proof (summarize_if_needed_frame st1) as F. rewrite Hsum in F; simpl in F.
    assert (Hm2 : max_history st2 = max_history st)
      by (now rewrite (frame_max_history F), (grows_max_history G)).
    assert (Hr2 : running st2 = true)
      by (now rewrite (frame_running F), (grows_running G)).
    destruct (@summarize_if_needed_summaries st1 st2 Hsum) as [Hover Hunder].
    rewrite (grows_max_history G) in Hover, Hunder.
    destruct (Z.eq_dec (j + 1) (max_history st)) as [Efull|Enot].
    + destruct Hover as [Hs2 Hlen2]; [lia|].
      destruct (IH (k + 1) 0 st2 st' result Hr2) as [IHs IHl];
        [rewrite Hm2; lia | rewrite Hlen2; lia | lia | exact H |].
      rewrite Hm2 in IHs, IHl.
      replace (j + (num_steps - k))
        with ((0 + (num_steps - (k + 1))) + 1 * max_history st) by lia.
      rewrite Z.div_add, Z.mod_add by lia.
      split; [rewrite IHs, Hs2, Hs1; lia | exact IHl].
    + rewrite (Hunder ltac:(lia)) in *.
      destruct (IH (k + 1) (j + 1) st1 st' result Hr2) as [IHs IHl];
        [rewrite Hm2; lia | exact Hlen1 | lia | exact H |].
      rewrite Hm2 in IHs, IHl.
      replace (j + (num_steps - k)) with (j + 1 + (num_steps - (k + 1))) by lia.
      split; [rewrite IHs, Hs1; lia | exact IHl].
Qed.

End Run.

(** ** Teardown *)

Section Teardown.

Variable W : World.

Lemma NoTeardown_bind {A B} (m : M W A) (k : A -> M W B) :
  NoTeardown m -> (forall a, NoTeardown (k a)) -> NoTeardown (bind m k).
Proof.
  intros Hm Hk st. rewrite final_state_bind.
  specialize (Hm st). destruct (m st) as [a st1|e st1]; simpl in Hm; [|exact Hm].
  now rewrite Hk.
Qed.

Lemma Quiet_NoTeardown {A} (m : M W A) : Quiet m -> NoTeardown m.
Proof. intros Q st. apply Q. Qed.

Lemma NoTeardown_history_append t : NoTeardown (@history_append W t).
Proof. intros st. simpl. rewrite teardowns_app. simpl. apply Nat.add_0_r. Qed.

Lemma NoTeardown_get_next_action : NoTeardown (@_get_next_action W).
Proof.
  unfold _get_next_action.
  apply NoTeardown_bind;
    [apply Quiet_NoTeardown, Quiet_emu_call; reflexivity | intros screenshot].
  apply NoTeardown_bind;
    [apply Quiet_NoTeardown, Quiet_emu_call; reflexivity | intros coordinates].
  apply NoTeardown_bind;
    [apply Quiet_NoTeardown, Quiet_emu_call; reflexivity | intros location].
  apply NoTeardown_bind; [apply NoTeardown_history_append | intros _].
  apply NoTeardown_bind; [apply Quiet_NoTeardown, Quiet_format | intros messages].
  apply Quiet_NoTeardown, Quiet_chat_via_client.
Qed.

Lemma NoTeardown_process_response response :
  NoTeardown (@_process_response W response).
Proof.
  unfold _process_response.
  apply NoTeardown_bind; [apply NoTeardown_history_append | intros _].
  apply NoTeardown_bind;
    [apply Quiet_NoTeardown, Quiet_call_tool_from_response | intros results].
  destruct results; apply Quiet_NoTeardown; [apply Quiet_parse | apply Quiet_ret].
Qed.

Lemma NoTeardown_step : NoTeardown (@step W).
Proof.
  unfold step.
  apply NoTeardown_bind;
    [apply NoTeardown_get_next_action | apply NoTeardown_process_response].
Qed.

Lemma NoTeardown_summarize_if_needed : NoTeardown (@summarize_if_needed W).
Proof. intros st. apply summarize_if_needed_frame. Qed.

Lemma NoTeardown_run_loop fuel num_steps :
  forall steps_completed, NoTeardown (@run_loop W fuel num_steps steps_completed).
Proof.
  induction fuel as [|fuel IH]; intros k st; simpl; [reflexivity|].
  destruct (running st && (k <? num_steps)); [|reflexivity].
  revert st. apply NoTeardown_bind; [apply NoTeardown_step | intros _].
  apply NoTeardown_bind; [apply NoTeardown_summarize_if_needed | intros _].
  apply IH.
Qed.

Lemma NoTeardown_run num_steps : NoTeardown (@run W num_steps).
Proof.
  unfold run, start, _send_initial_observation.
  apply NoTeardown_bind; [|intros _; apply NoTeardown_run_loop].
  apply NoTeardown_bind;
    [apply Quiet_NoTeardown, Quiet_emu_call; reflexivity | intros _].
  apply NoTeardown_bind; [intros st; reflexivity | intros _].
  apply NoTeardown_bind;
    [apply Quiet_NoTeardown, Quiet_emu_call; reflexivity | intros screenshot].
  apply NoTeardown_history_append.
Qed.

(** One call of [stop]: the flag is cleared, the emulator's teardown is
    invoked once, and [stop] returns when the teardown does. *)
Lemma stop_once (st : SimpleAgent W) :
  trace (final_state (stop st)) = (trace st ++ [EmuStop])%list /\
  running (final_state (stop st)) = false /\
  returns (stop st) = is_ok (fst (emu_stop W (emulator st))).
Proof.
  unfold stop, bind, modify, emu_call; simpl.
  destruct (emu_stop W (emulator st)) as [[[]|e] e']; simpl; auto.
Qed.

End Teardown.

Section TeardownClaims.

Variable W : World.

(** Claim C3, as the code has it.  Every call of [stop] clears the
    running flag and invokes the emulator's teardown exactly once, and
    returns exactly when the teardown returns: a second call invokes the
    teardown a second time.  [main] calls [stop] once on every path, so
    that a whole run of the program invokes the teardown exactly once. *)
Theorem stop_invokes_teardown_every_time (st : SimpleAgent W) :
  (trace (final_state (stop st)) = (trace st ++ [EmuStop])%list /\
   running (final_state (stop st)) = false /\
   returns (stop st) = is_ok (fst (emu_stop W (emulator st)))) /\
  teardowns (trace (final_state (stop (final_state (stop st)))))
  = (teardowns (trace st) + 2)%nat /\
  (forall steps e b, teardowns (trace (final_state (main W steps e b))) = 1%nat).
Proof.
  split; [apply stop_once|]. split.
  - destruct (stop_once (final_state (stop st))) as (-> & _).
    destruct (stop_once st) as (-> & _).
    rewrite !teardowns_app. simpl. lia.
  - intros steps e b. unfold main.
    pose proof (NoTeardown_run steps (init W e b)) as Hrun. simpl in Hrun.
    assert (Hstop : forall st1 : SimpleAgent W,
               teardowns (trace st1) = 0%nat ->
               teardowns (trace (final_state (stop st1))) = 1%nat).
    { intros st1 H0. destruct (stop_once st1) as (-> & _).
      rewrite teardowns_app, H0. reflexivity. }
    destruct (run steps (init W e b)) as [k st1|[cls msg|] st1]; simpl in Hrun;
      try (apply Hstop; exact Hrun).
    specialize (Hstop st1 Hrun).
    destruct (stop st1) as [[] st2|e2 st2]; exact Hstop.
Qed.

End TeardownClaims.

(** ** Runs in which no collaborator raises *)

Section Calm.

Variable W : World.
Hypothesis Hcalm : calm W.

Lemma calm_press_soft :
  forall bs w e, fst (emu_press_buttons W bs w e) <> Err KeyboardInterrupt.
Proof.
  intros bs w e H. pose proof (calm_press Hcalm bs w e) as Hok.
  rewrite H in Hok. discriminate.
Qed.

(** The backend answers, so the adapter hands over a reply object. *)
Lemma chat_via_client_calm messages tools (st : SimpleAgent W) :
  exists r st',
    chat_via_client messages tools st = Returns (Obj r) st' /\
    message_content (response_message r) <> Some PNone.
Proof.
  unfold chat_via_client, try_except, bind, client_chat. cbv zeta.
  pose proof (calm_chat Hcalm (model_name (ollama st)) messages (max_tokens (ollama st))
                (tools_or_none tools) (client (ollama st))) as Hok.
  pose proof (@calm_text W Hcalm (model_name (ollama st)) messages (max_tokens (ollama st))
                (tools_or_none tools) (client (ollama st))) as Htext.
  destruct (backend_chat _ _ _ _ _ _) as [[r|e] b']; [|discriminate].
  simpl. exists r. eexists. split; [reflexivity|]. now apply Htext.
Qed.

Lemma get_next_action_calm (st : SimpleAgent W) :
  exists r st',
    _get_next_action st = Returns (Obj r) st' /\
    message_content (response_message r) <> Some PNone.
Proof.
  unfold _get_next_action, bind, emu_call.
  pose proof (calm_screenshot Hcalm (emulator st)) as H1.
  destruct (emu_get_screenshot W (emulator st)) as [[img|e] e1]; [|discriminate].
  cbn [emulator set_emulator log].
  pose proof (calm_coordinates Hcalm e1) as H2.
  destruct (emu_get_coordinates W e1) as [[c|e] e2]; [|discriminate].
  cbn [emulator set_emulator log].
  pose proof (calm_location Hcalm e2) as H3.
  destruct (emu_get_location W e2) as [[l|e] e3]; [|discriminate].
  cbn [history_append modify].
  rewrite format_messages.
  apply chat_via_client_calm.
Qed.

Lemma Total_parse (content : string) :
  Total (@_parse_and_execute_text_response W content).
Proof.
  unfold _parse_and_execute_text_response.
  destruct (buttons_to_press W content); [apply Total_ret|].
  apply Total_bind; [|intros _; apply Total_ret].
  apply Total_emu_call. intros e. apply (calm_press Hcalm).
Qed.

Lemma Total_process_response r :
  message_content (response_message r) <> Some PNone ->
  Total (@_process_response W (Obj r)).
Proof.
  intros Htext.
  assert (Hstr : exists text, response_content (Obj r) = PStr text).
  { unfold response_content.
    destruct (message_content (response_message r)) as [[text|]|]; eauto.
    now contradiction Htext. }
  destruct Hstr as (text & Hstr).
  unfold _process_response. rewrite Hstr.
  apply Total_bind; [apply Total_modify | intros _].
  apply Total_bind.
  - intros st. unfold call_tool_from_response, bind, attr_message, ret.
    destruct (message_tool_calls (response_message r)) as [[|tool rest]|];
      try reflexivity.
    destruct (call_tools_answers calm_press_soft (tool :: rest) [] st)
      as (entries & st' & H & _).
    now rewrite H.
  - intros results. destruct results; [apply Total_parse | apply Total_ret].
Qed.

Lemma step_calm (st : SimpleAgent W) : exists st', step st = Returns tt st'.
Proof.
  unfold step, bind.
  destruct (get_next_action_calm st) as (r & st1 & -> & Htext).
  pose proof (@Total_process_response r Htext st1) as H.
  destruct (_process_response (Obj r) st1) as [[] st2|]; [eauto | discriminate].
Qed.

Lemma summarize_if_needed_calm (st : SimpleAgent W) :
  exists st', summarize_if_needed st = Returns tt st'.
Proof.
  unfold summarize_if_needed. destruct (_ >? _); [|eauto].
  pose proof (calm_screenshot Hcalm (emulator st)) as Hshot.
  destruct (emu_get_screenshot W (emulator st)) as [[img|e] e'] eqn:Eshot;
    [|discriminate].
  destruct (summarize_history_returns st Eshot) as (reply & st' & H & _); [|eauto].
  intros msgs Herr.
  pose proof (calm_chat Hcalm (model_name (ollama st)) msgs (max_tokens (ollama st))
                None (client (ollama st))) as Hok.
  rewrite Herr in Hok. discriminate.
Qed.

Lemma start_calm (st : SimpleAgent W) : exists st', start st = Returns tt st'.
Proof.
  unfold start, _send_initial_observation, bind, emu_call.
  pose proof (calm_initialize Hcalm (emulator st)) as H1.
  destruct (emu_initialize W (emulator st)) as [[[]|e] e1]; [|discriminate].
  cbn [modify emulator set_emulator set_running log].
  pose proof (calm_screenshot Hcalm e1) as H2.
  destruct (emu_get_screenshot W e1) as [[img|e] e2]; [|discriminate].
  eexists. reflexivity.
Qed.

(** Handling a reply of the backend: it is recorded, then its tool calls
    are carried out or, when it has none, the buttons named in its text
    are pressed. *)
Lemma process_response_calm r (st : SimpleAgent W) :
  message_content (response_message r) <> Some PNone ->
  exists text st',
    response_content (Obj r) = PStr text /\
    _process_response (Obj r) st = Returns tt st' /\
    grows st st' [reply_turn (Obj r)] /\
    trace st' = (trace st ++ HistoryAppend (reply_turn (Obj r)) :: reply_presses W r)%list.
Proof.
  intros Htext.
  assert (Htxt : exists text, response_content (Obj r) = PStr text).
  { unfold response_content.
    destruct (message_content (response_message r)) as [[text|]|]; eauto.
    now contradiction Htext. }
  destruct Htxt as (text & Htxt).
  assert (Hret : exists st',
             _process_response (Obj r) st = Returns tt st' /\
             trace st'
             = (trace st ++ HistoryAppend (reply_turn (Obj r)) :: reply_presses W r)%list).
  { unfold _process_response, reply_presses, reply_turn. cbv zeta. rewrite Htxt.
    unfold bind at 1. cbn [history_append modify].
    set (s1 := log _ _).
    assert (Htr1 : trace s1
                   = (trace st ++ [HistoryAppend (mkTurn "assistant" (Text text))])%list)
      by reflexivity.
    assert (Hfallback : exists st',
               _parse_and_execute_text_response text s1 = Returns tt st' /\
               trace st'
               = (trace st ++
                  HistoryAppend (mkTurn "assistant" (Text text)) ::
                  match buttons_to_press W text with
                  | [] => []
                  | bs => [EmuPress (VList (map VStr bs)) (VBool true)]
                  end)%list).
    { pose proof (parse_trace text s1) as Htr.
      pose proof (Total_parse text s1) as Htot.
      destruct (_parse_and_execute_text_response text s1) as [[] st'|]; [|discriminate].
      exists st'. split; [reflexivity|].
      cbn [final_state] in Htr. rewrite Htr, Htr1. now rewrite <- app_assoc. }
    unfold call_tool_from_response, bind, attr_message, ret.
    destruct (message_tool_calls (response_message r)) as [[|tool rest]|];
      [exact Hfallback | | exact Hfallback].
    destruct (call_tools_executes calm_press_soft (tool :: rest) [] s1)
      as (entries & st' & H & Hex & Htr).
    rewrite H. destruct entries as [|entry entries]; [inversion Hex|].
    exists st'. split; [reflexivity|].
    rewrite Htr, Htr1. now rewrite <- app_assoc. }
  destruct Hret as (st' & Hret & Htr).
  exists text, st'. split; [exact Htxt|]. split; [exact Hret|].
  split; [now apply process_response_grows in Hret | exact Htr].
Qed.

(** One step, in full: the emulator shows the screen, the coordinates and
    the location; the observation made of them is appended; the backend
    is sent the flattened history with the declared tools; its reply is
    appended and acted upon. *)
Lemma step_calm_detail (st : SimpleAgent W) :
  exists img e1 c e2 l e3 r b' text st',
    emu_get_screenshot W (emulator st) = (Ok img, e1) /\
    emu_get_coordinates W e1 = (Ok c, e2) /\
    emu_get_location W e2 = (Ok l, e3) /\
    backend_chat W (model_name (ollama st))
      (sent_messages (message_history st ++ [observation_turn W img c l]))
      (max_tokens (ollama st)) (Some AVAILABLE_TOOLS) (client (ollama st)) = (Ok r, b') /\
    response_content (Obj r) = PStr text /\
    step st = Returns tt st' /\
    grows st st' [observation_turn W img c l; reply_turn (Obj r)] /\
    trace st'
    = (trace st ++
       [EmuScreenshot; EmuCoordinates; EmuLocation;
        HistoryAppend (observation_turn W img c l);
        step_request st (observation_turn W img c l);
        HistoryAppend (reply_turn (Obj r))] ++ reply_presses W r)%list.
Proof.
  pose proof (calm_screenshot Hcalm (emulator st)) as H1.
  destruct (emu_get_screenshot W (emulator st)) as [[img|e] e1] eqn:E1; [|discriminate].
  pose proof (calm_coordinates Hcalm e1) as H2.
  destruct (emu_get_coordinates W e1) as [[c|e] e2] eqn:E2; [|discriminate].
  pose proof (calm_location Hcalm e2) as H3.
  destruct (emu_get_location W e2) as [[l|e] e3] eqn:E3; [|discriminate].
  pose proof (calm_chat Hcalm (model_name (ollama st))
                (sent_messages (message_history st ++ [observation_turn W img c l]))
                (max_tokens (ollama st)) (Some AVAILABLE_TOOLS) (client (ollama st))) as H4.
  pose proof (@calm_text W Hcalm (model_name (ollama st))
                (sent_messages (message_history st ++ [observation_turn W img c l]))
                (max_tokens (ollama st)) (Some AVAILABLE_TOOLS) (client (ollama st))) as H5.
  destruct (backend_chat W _ _ _ _ _) as [[r|e] b'] eqn:Echat; [|discriminate].
  specialize (H5 r eq_refl).
  destruct (get_next_action_outcome st E1 E2 E3 Echat) as (st1 & Hnext & G1 & _ & _ & Htr1).
  destruct (@process_response_calm r st1 H5) as (text & st' & Htxt & Hproc & G2 & Htr2).
  exists img, e1, c, e2, l, e3, r, b', text, st'.
  repeat (split; [first [reflexivity | assumption]|]). split; [|split].
  - unfold step, bind. now rewrite Hnext.
  - apply (grows_trans G1 G2).
  - rewrite Htr2, Htr1, <- app_assoc. reflexivity.
Qed.

Lemma step_turns_roles n ts :
  step_turns W n ts -> map turn_role ts = step_roles n.
Proof. induction 1 as [|n img c l text rest _ IH]; simpl; [reflexivity | now rewrite IH]. Qed.

(** The loop runs its whole budget: it returns the budget after as many
    iterations as steps remain, and the turns it appends are an
    observation and a reply for each of them. *)
Lemma run_loop_calm (fuel : nat) (num_steps : Z) :
  forall steps_completed (st : SimpleAgent W),
    running st = true ->
    Z.of_nat fuel = num_steps - steps_completed ->
    exists st' ts,
      run_loop fuel num_steps steps_completed st = Returns num_steps st' /\
      steps fuel st st' /\
      step_turns W fuel ts /\
      appended (trace st') = (appended (trace st) ++ ts)%list.
Proof.
  induction fuel as [|fuel IH]; intros k st Hrun Hfuel.
  - exists st, []. rewrite app_nil_r.
    split; [|split; [constructor | split; [constructor | reflexivity]]].
    simpl. unfold ret. f_equal. simpl in Hfuel. lia.
  - cbn [run_loop]. rewrite Hrun.
    replace (k <? num_steps) with true by (symmetry; apply Z.ltb_lt; lia).
    cbn [andb]. unfold bind.
    destruct (step_calm_detail st)
      as (img & e1 & c & e2 & l & e3 & r & b' & text & st1 & _ & _ & _ & _ &
          Htxt & Hstep & G & _).
    rewrite Hstep.
    destruct (summarize_if_needed_calm st1) as (st2 & Hsum). rewrite Hsum.
    pose proof (summarize_if_needed_frame st1) as F. rewrite Hsum in F; simpl in F.
    destruct (IH (k + 1) st2) as (st' & ts & Hloop & Hsteps & Hturns & Happ).
    + rewrite (frame_running F), (grows_running G). exact Hrun.
    + lia.
    + exists st', (observation_turn W img c l :: mkTurn "assistant" (Text (PStr text)) :: ts).
      split; [exact Hloop|]. split; [|split].
      * eapply steps_S; eauto.
      * now constructor.
      * rewrite Happ, (frame_appended F), (grows_appended G).
        unfold reply_turn. rewrite Htxt. now rewrite <- app_assoc.
Qed.

End Calm.

Section RunClaims.

Variable W : World.

(** Claim C2 (fails on the code).  When the backend call raises an
    [Exception], [chat_via_client] does not raise: it returns the plain
    mapping whose only entry is the message with the text "Error: "
    followed by the text of the exception, so that it has no tool
    call.  But the loop does not continue: the step that
    made the call appends the observation and the error text and then
    raises [AttributeError], because [call_tool_from_response] reads the
    mapping as an object, and the iteration of the loop of [run], and so
    [run], raise with it. *)
Theorem backend_failure_ends_the_run :
  (forall (st : SimpleAgent W) messages tools cls msg,
      fst (backend_chat W (model_name (ollama st)) messages (max_tokens (ollama st))
             (tools_or_none tools) (client (ollama st))) = Err (Exception cls msg) ->
      exists st',
        chat_via_client messages tools st = Returns (Mapping ("Error: " ++ msg)) st' /\
        Str.startswith "Error:" ("Error: " ++ msg) = true /\
        response_content (Mapping ("Error: " ++ msg)) = PStr ("Error: " ++ msg) /\
        quiet st st') /\
  (forall (st : SimpleAgent W) img e1 c e2 l e3 cls msg b',
      emu_get_screenshot W (emulator st) = (Ok img, e1) ->
      emu_get_coordinates W e1 = (Ok c, e2) ->
      emu_get_location W e2 = (Ok l, e3) ->
      backend_chat W (model_name (ollama st))
        (sent_messages (message_history st ++ [observation_turn W img c l]))
        (max_tokens (ollama st)) (Some AVAILABLE_TOOLS) (client (ollama st))
      = (Err (Exception cls msg), b') ->
      exists st1 st2,
        _get_next_action st = Returns (Mapping ("Error: " ++ msg)) st1 /\
        step st
        = Raises (Exception "AttributeError" "'dict' object has no attribute 'message'") st2 /\
        message_history st2
        = (message_history st ++
           [observation_turn W img c l; reply_turn (Mapping ("Error: " ++ msg))])%list /\
        (forall fuel num_steps steps_completed,
            running st = true ->
            steps_completed < num_steps ->
            run_loop (S fuel) num_steps steps_completed st
            = Raises (Exception "AttributeError" "'dict' object has no attribute 'message'")
                     st2)).
Proof.
  split.
  - intros st messages tools cls msg Hfail.
    pose proof (Quiet_chat_via_client messages tools st) as Q.
    unfold chat_via_client, try_except, bind, client_chat in *. cbv zeta in *.
    destruct (backend_chat _ _ _ _ _ _) as [res b']. simpl in Hfail. subst res.
    eexists. split; [reflexivity|]. split; [reflexivity|]. split; [reflexivity|].
    exact Q.
  - intros st img e1 c e2 l e3 cls msg b' E1 E2 E3 Echat.
    destruct (get_next_action_outcome st E1 E2 E3 Echat) as (st1 & Hnext & G & _).
    assert (Hstep : step st
                    = Raises (Exception "AttributeError"
                                "'dict' object has no attribute 'message'")
                        (log (HistoryAppend (reply_turn (Mapping ("Error: " ++ msg))))
                           (set_message_history
                              (message_history st1 ++
                               [reply_turn (Mapping ("Error: " ++ msg))]) st1))).
    { unfold step, bind. rewrite Hnext. reflexivity. }
    eexists st1, _. split; [exact Hnext|]. split; [exact Hstep|]. split.
    + cbn [message_history log set_message_history].
      rewrite (grows_history G), <- app_assoc. reflexivity.
    + intros fuel num_steps k Hrun Hk. cbn [run_loop]. rewrite Hrun.
      replace (k <? num_steps) with true by (symmetry; apply Z.ltb_lt; lia).
      cbn [andb]. unfold bind at 1. now rewrite Hstep.
Qed.

(** Claim C5.  When the history is longer than [2 * max_history], the
    check that ends a loop iteration runs [summarize_history], which
    (given a screenshot and an uninterrupted backend call) returns and
    leaves a history of length exactly 1, after having called the
    collaborators.  When the history is not longer than that, the check
    does nothing at all.  An agent is created with [max_history = 10].
    In every iteration of the loop of [run], once the step has returned,
    [summarize_history] is called if the history is then longer than
    [2 * max_history] and is not called otherwise, and the loop goes on
    with the next iteration.  So a run of [num_steps] steps that starts
    with an empty history and returns has asked the backend for a summary
    exactly once every [max_history] steps, which are the steps that bring
    the history beyond [2 * max_history] turns, and ends with
    [1 + 2 * (num_steps mod max_history)] turns. *)
Theorem summarize_resets_history_to_one (st : SimpleAgent W) :
  (forall e b, max_history (init W e b) = 10) /\
  (history_length st <= 2 * max_history st ->
   summarize_if_needed st = Returns tt st) /\
  (history_length st > 2 * max_history st ->
   is_ok (fst (emu_get_screenshot W (emulator st))) = true ->
   (forall msgs,
       fst (backend_chat W (model_name (ollama st)) msgs (max_tokens (ollama st)) None
              (client (ollama st))) <> Err KeyboardInterrupt) ->
   exists st',
     summarize_if_needed st = summarize_history st /\
     summarize_history st = Returns tt st' /\
     length (message_history st') = 1%nat /\
     trace st' <> trace st) /\
  (forall fuel num_steps steps_completed st1,
      running st = true ->
      steps_completed < num_steps ->
      step st = Returns tt st1 ->
      run_loop (S fuel) num_steps steps_completed st
      = if history_length st1 >? 2 * max_history st1
        then bind (@summarize_history W)
               (fun _ => run_loop fuel num_steps (steps_completed + 1)) st1
        else run_loop fuel num_steps (steps_completed + 1) st1) /\
  (message_history st = [] ->
   1 <= max_history st ->
   forall num_steps result st',
     0 <= num_steps ->
     run num_steps st = Returns result st' ->
     Z.of_nat (summaries (trace st'))
     = Z.of_nat (summaries (trace st)) + num_steps / max_history st /\
     history_length st' = 1 + 2 * (num_steps mod max_history st)).
Proof.
  split; [reflexivity|].
  split; [|split; [|split]]; cycle 2.
  { intros fuel num_steps k st1 Hrun Hk Hstep. cbn [run_loop]. rewrite Hrun.
    replace (k <? num_steps) with true by (symmetry; apply Z.ltb_lt; lia).
    cbn [andb]. unfold bind at 1. rewrite Hstep.
    unfold bind at 1, summarize_if_needed, history_length.
    rewrite (Z.mul_comm (max_history st1) 2).
    destruct (_ >? _); reflexivity. }
  { intros Hfresh Hmax num_steps result st' Hn Hrun.
    unfold run in Hrun. apply bind_returns in Hrun as ([] & st1 & Hstart & Hloop).
    pose proof Hstart as Hsum0.
    apply start_grows in Hstart as (t & G & _).
    assert (Hs : summaries (trace st1) = summaries (trace st)).
    { destruct (Adds_start st) as (evs & Htr & Hevs).
      rewrite Hsum0 in Htr. cbn [final_state] in Htr.
      rewrite Htr, summaries_app.
      assert (H0 : summaries evs = O).
      { apply summaries_none. revert Hevs. apply Forall_impl.
        intros []; simpl; auto; contradiction. }
      rewrite H0. apply Nat.add_0_r. }
    assert (Hm : max_history st1 = max_history st) by apply (grows_max_history G).
    destruct (@run_loop_summaries W (Z.to_nat num_steps) num_steps 0 0 st1 st' result)
      as [H1 H2].
    - now rewrite (grows_running G).
    - rewrite Hm. lia.
    - unfold history_length. rewrite (grows_history G).
      cbn [set_running message_history]. now rewrite Hfresh.
    - lia.
    - exact Hloop.
    - rewrite Hm, Hs, Z.sub_0_r, Z.add_0_l in H1.
      rewrite Hm, Z.sub_0_r, Z.add_0_l in H2. split; assumption. }
  all: unfold history_length, summarize_if_needed.
  - intros Hle. destruct (_ >? _) eqn:E; [|reflexivity].
    apply Z.gtb_lt in E. lia.
  - intros Hgt Hshot Hsoft.
    destruct (emu_get_screenshot W (emulator st)) as [[img|e] e'] eqn:Eshot;
      [|discriminate].
    destruct (summarize_history_returns st Eshot Hsoft) as (reply & st' & Hret & Hh & _).
    exists st'. split; [|split; [exact Hret | split]].
    + destruct (_ >? _) eqn:E; [reflexivity|].
      rewrite Z.gtb_ltb, Z.ltb_ge in E. lia.
    + now rewrite Hh.
    + pose proof (request_summary_trace st Eshot) as Htr.
      unfold summarize_history, bind in Hret.
      destruct (request_summary st) as [[shot text] st1|]; [|discriminate].
      injection Hret as <-. simpl in *. rewrite Htr.
      intros Heq. apply (f_equal (@length Event)) in Heq.
      rewrite length_app in Heq. simpl in Heq. lia.
Qed.


(** Claim C10.  For an agent whose history is empty and whose
    [max_history] is at least 1 (a fresh agent has 10): in every state in
    which [run] tests its loop condition or evaluates its summarization
    check, the history has an odd length; at the summarization check it
    is at most [2 * max_history + 1]; when the loop condition is tested,
    that is after the initial observation and immediately after each
    step's summarization check, it is at most [2 * max_history].  The
    state in which [run] returns is one of these. *)
Theorem history_length_invariant (st0 : SimpleAgent W) :
  message_history st0 = [] ->
  1 <= max_history st0 ->
  (forall p st,
      reaches st0 p st ->
      max_history st = max_history st0 /\
      Z.odd (history_length st) = true /\
      match p with
      | AtLoopTest => history_length st <= 2 * max_history st
      | AtCheck => history_length st <= 2 * max_history st + 1
      end) /\
  (forall num_steps result st',
      run num_steps st0 = Returns result st' ->
      reaches st0 AtLoopTest st').
Proof.
  intros Hfresh Hmax. split.
  - intros p st Hreach. now apply reaches_invariant.
  - intros num_steps result st' Hrun.
    unfold run in Hrun.
    apply bind_returns in Hrun as ([] & st1 & Hstart & Hloop).
    eapply run_loop_reaches; [|exact Hloop].
    now apply reach_start.
Qed.

End RunClaims.

(** ** The statements at concrete collaborators *)

Lemma replay_world_calm : calm Demo.replay_world.
Proof.
  constructor; try (intros; reflexivity).
  - intros m msgs n tools script. destruct script; reflexivity.
  - intros m msgs n tools script r H.
    destruct script; simpl in H; injection H as <-; discriminate.
Qed.

(** The backend is down: the first step of the run raises
    [AttributeError], and so does [main] after its one teardown. *)
Example offline_run_raises :
  match run 3 (init Demo.offline_world 0%nat tt) with
  | Raises (Exception cls _) st =>
      cls = "AttributeError" /\
      map turn_role (message_history st) = ["user"; "user"; "assistant"]
  | _ => False
  end /\
  match main Demo.offline_world 3 0%nat tt with
  | Raises (Exception cls _) st => cls = "AttributeError" /\ teardowns (trace st) = 1%nat
  | _ => False
  end.
Proof. vm_compute. repeat split. Qed.

Lemma backend_failure_ends_the_run_witness :
  emu_get_screenshot Demo.offline_world (emulator (init Demo.offline_world 0%nat tt))
  = (Ok tt, 0%nat) /\
  emu_get_coordinates Demo.offline_world 0%nat = (Ok (3, 4), 0%nat) /\
  emu_get_location Demo.offline_world 0%nat = (Ok "PALLET TOWN", 0%nat) /\
  backend_chat Demo.offline_world
    (model_name (ollama (init Demo.offline_world 0%nat tt)))
    (sent_messages
       (message_history (init Demo.offline_world 0%nat tt) ++
        [observation_turn Demo.offline_world tt (3, 4) "PALLET TOWN"]))
    (max_tokens (ollama (init Demo.offline_world 0%nat tt)))
    (Some AVAILABLE_TOOLS) (client (ollama (init Demo.offline_world 0%nat tt)))
  = (Err (Exception "ConnectionError" "Failed to connect to Ollama"), tt) /\
  exists st1 st2,
    _get_next_action (init Demo.offline_world 0%nat tt)
    = Returns (Mapping ("Error: " ++ "Failed to connect to Ollama")) st1 /\
    step (init Demo.offline_world 0%nat tt)
    = Raises (Exception "AttributeError" "'dict' object has no attribute 'message'") st2 /\
    message_history st2
    = (message_history (init Demo.offline_world 0%nat tt) ++
       [observation_turn Demo.offline_world tt (3, 4) "PALLET TOWN";
        reply_turn (Mapping ("Error: " ++ "Failed to connect to Ollama"))])%list /\
    (forall fuel num_steps steps_completed,
        running (init Demo.offline_world 0%nat tt) = true ->
        steps_completed < num_steps ->
        run_loop (S fuel) num_steps steps_completed (init Demo.offline_world 0%nat tt)
        = Raises (Exception "AttributeError" "'dict' object has no attribute 'message'")
                 st2).
Proof.
  split; [reflexivity|]. split; [reflexivity|]. split; [reflexivity|].
  split; [reflexivity|].
  apply (proj2 (@backend_failure_ends_the_run Demo.offline_world)
           (init Demo.offline_world 0%nat tt) tt 0%nat (3, 4) 0%nat "PALLET TOWN" 0%nat
           "ConnectionError" "Failed to connect to Ollama" tt);
    reflexivity.
Defined.

Lemma stop_twice_two_teardowns :
  ~ (teardowns
       (trace (final_state
                 (stop (final_state (stop (init Demo.replay_world 0%nat []))))))
     <= 1)%nat.
Proof. vm_compute. intros H. inversion H as [|n H' E]. inversion H'. Qed.

Lemma summarize_resets_history_to_one_witness :
  history_length Demo.long_history > 2 * max_history Demo.long_history /\
  (exists st',
      summarize_if_needed Demo.long_history = summarize_history Demo.long_history /\
      summarize_history Demo.long_history = Returns tt st' /\
      length (message_history st') = 1%nat /\
      trace st' <> trace Demo.long_history) /\
  message_history (init Demo.replay_world 0%nat []) = [] /\
  1 <= max_history (init Demo.replay_world 0%nat []) /\
  0 <= 25 /\
  run 25 (init Demo.replay_world 0%nat [])
  = Returns 25 (final_state (run 25 (init Demo.replay_world 0%nat []))) /\
  Z.of_nat (summaries (trace (final_state (run 25 (init Demo.replay_world 0%nat [])))))
  = Z.of_nat (summaries (trace (init Demo.replay_world 0%nat []))) +
    25 / max_history (init Demo.replay_world 0%nat []) /\
  history_length (final_state (run 25 (init Demo.replay_world 0%nat [])))
  = 1 + 2 * (25 mod max_history (init Demo.replay_world 0%nat [])).
Proof.
  assert (Hmax : 1 <= max_history (init Demo.replay_world 0%nat []))
    by (vm_compute; discriminate).
  assert (Hrun : run 25 (init Demo.replay_world 0%nat [])
                 = Returns 25 (final_state (run 25 (init Demo.replay_world 0%nat []))))
    by (vm_compute; reflexivity).
  split; [reflexivity|]. split.
  - apply (proj1 (proj2 (proj2 (summarize_resets_history_to_one Demo.long_history))));
      [reflexivity | reflexivity | intros msgs; discriminate].
  - split; [reflexivity|]. split; [exact Hmax|]. split; [lia|]. split; [exact Hrun|].
    apply (proj2 (proj2 (proj2 (proj2
             (summarize_resets_history_to_one (init Demo.replay_world 0%nat [])))))
             eq_refl Hmax 25 25
             (final_state (run 25 (init Demo.replay_world 0%nat []))));
      [lia | exact Hrun].
Defined.

Lemma text_fallback_collects_tokens_witness :
  In "UP" valid_buttons /\
  occurs_ci "UP" "go Up!" /\
  In "UP" (buttons_to_press Demo.replay_world "go Up!").
Proof.
  assert (Hin : In "UP" valid_buttons) by (simpl; auto 10).
  assert (Hocc : occurs_ci "UP" "go Up!")
    by (exists "go ", "Up", "!"; split; reflexivity).
  split; [exact Hin|]. split; [exact Hocc|].
  apply (proj1 (@text_fallback_collects_tokens Demo.replay_world
                  (init Demo.replay_world 0%nat []) "go Up!") "UP" Hin Hocc).
Defined.

(** Where the interpreter maps a character beyond ASCII to an ASCII
    letter, a button is found that no ASCII case folding finds. *)
Example dotless_i_is_read_as_i :
  buttons_to_press Demo.dotless_world (String "r" (String Demo.dotless_i "ght")) = ["RIGHT"] /\
  buttons_to_press Demo.replay_world (String "r" (String Demo.dotless_i "ght")) = [].
Proof. split; reflexivity. Qed.

Lemma call_tool_from_response_runs_every_call_witness :
  (forall bs w e,
      fst (emu_press_buttons Demo.replay_world bs w e) <> Err KeyboardInterrupt) /\
  call_tool_from_response
    (Obj (mkResponse (mkMessage "assistant" (Some (PStr "")) (Some Demo.unknown_then_known))))
    (get_available_functions Demo.replay_world)
    (init Demo.replay_world 0%nat [])
  = Returns
      [mkToolResult "jump" [] (Error "Function jump not found");
       mkToolResult "press_buttons" [("buttons", VList [VStr "a"])]
         (Result (VStr "pressed"))]
      (@set_emulator Demo.replay_world 1%nat
         (log (EmuPress (VList [VStr "a"]) (VBool true))
              (init Demo.replay_world 0%nat []))).
Proof.
  assert (Hsoft : forall bs w e,
             fst (emu_press_buttons Demo.replay_world bs w e) <> Err KeyboardInterrupt)
    by (intros bs w e; discriminate).
  split; [exact Hsoft|].
  apply (proj2 (@call_tool_from_response_runs_every_call Demo.replay_world Hsoft)
           (init Demo.replay_world 0%nat []) "assistant" (Some (PStr "")) "jump" []
           (VList [VStr "a"]) (VStr "pressed") 1%nat);
    reflexivity.
Defined.


Lemma mute_world_uninterrupted : uninterrupted Demo.mute_world.
Proof. constructor; intros; discriminate. Qed.

Lemma offline_world_uninterrupted : uninterrupted Demo.offline_world.
Proof. constructor; intros; discriminate. Qed.

Lemma faulty_world_uninterrupted : uninterrupted Faulty.world.
Proof.
  constructor; intros; try discriminate.
  - unfold Faulty.world, Faulty.screenshot; simpl. destruct e; discriminate.
  - simpl. destruct b; discriminate.
Qed.


Lemma summary_turn_shape_witness :
  is_ok (fst (emu_get_screenshot Demo.replay_world (emulator Demo.long_history))) = true /\
  exists st' t summary_text,
    summarize_history Demo.long_history = Returns tt st' /\
    message_history st' = [t] /\
    length (filter is_image (parts_of t)) = 1%nat /\
    length (filter is_text (parts_of t)) = 3%nat /\
    (2 <= length (filter is_text (parts_of t)))%nat /\
    hd_error (parts_of t)
    = Some (TextPart ("CONVERSATION HISTORY SUMMARY (representing " ++
                      Str.of_Z (max_history Demo.long_history) ++
                      " previous messages): " ++ summary_text)).
Proof.
  split; [reflexivity|].
  apply (@summary_turn_shape Demo.replay_world Demo.long_history);
    [reflexivity | intros msgs; discriminate].
Defined.

Lemma summarize_request_not_stored_witness :
  emu_get_screenshot Demo.replay_world (emulator Demo.long_history) = (Ok tt, 0%nat) /\
  trace (final_state (request_summary Demo.long_history))
  = (trace Demo.long_history ++
     [EmuScreenshot;
      BackendChat (model_name (ollama Demo.long_history))
        ((mkMsg "system" SYSTEM_PROMPT ::
          map (fun msg => mkMsg (turn_role msg) (flatten_content (turn_content msg)))
              (message_history Demo.long_history)) ++ [mkMsg "user" SUMMARY_PROMPT])
        (max_tokens (ollama Demo.long_history)) None])%list.
Proof.
  split; [reflexivity|].
  apply (proj1 (proj2 (summarize_request_not_stored Demo.long_history)) tt 0%nat).
  reflexivity.
Defined.

Lemma history_length_invariant_witness :
  message_history (init Demo.replay_world 0%nat []) = [] /\
  1 <= max_history (init Demo.replay_world 0%nat []) /\
  forall num_steps result st',
    run num_steps (init Demo.replay_world 0%nat []) = Returns result st' ->
    Z.odd (history_length st') = true /\
    history_length st' <= 2 * max_history st'.
Proof.
  split; [reflexivity|]. split; [vm_compute; discriminate|].
  intros num_steps result st' Hrun.
  destruct (@history_length_invariant Demo.replay_world
              (init Demo.replay_world 0%nat []) eq_refl) as [Hinv Hreach].
  - vm_compute; discriminate.
  - apply (Hinv AtLoopTest st'). apply (Hreach num_steps result st' Hrun).
Defined.

(** * Further properties of the code *)

(** ** Flattening the history *)

Lemma concat_cons (x : string) (l : list string) :
  String.concat "" (x :: l) = x ++ String.concat "" l.
Proof. destruct l; simpl; [now rewrite append_empty_r | reflexivity]. Qed.

Lemma fold_left_lines (ps : list Part) (acc : string) :
  fold_left
    (fun content item =>
       match item with
       | TextPart text => content ++ text ++ LF
       | ImagePart _ _ _ => content ++ "[IMAGE: Game Screenshot]" ++ LF
       end) ps acc
  = acc ++ String.concat "" (map part_line ps).
Proof.
  revert acc. induction ps as [|p ps IH]; intros acc.
  - simpl. now rewrite append_empty_r.
  - cbn [fold_left map]. rewrite IH, concat_cons.
    destruct p; cbn [part_line]; apply append_assoc.
Qed.

Lemma flatten_parts (ps : list Part) :
  flatten_content (Parts ps) = String.concat "" (map part_line ps).
Proof. unfold flatten_content. now rewrite fold_left_lines. Qed.

Lemma part_line_redact (p : Part) : part_line (redact p) = part_line p.
Proof. destruct p; reflexivity. Qed.

(** Extra X1.  The content of a turn is flattened part by part, in order:
    a text part gives its text and a line feed, an image part gives the
    placeholder line, and a plain string is taken as it is.  The payload
    of an image never reaches the flattened text: two contents that differ
    in their image payloads only are flattened to the same text. *)
Theorem flatten_content_hides_images (ps ps' : list Part) (s : string) :
  flatten_content (Parts ps) = String.concat "" (map part_line ps) /\
  flatten_content (Text s) = s /\
  (map redact ps = map redact ps' ->
   flatten_content (Parts ps) = flatten_content (Parts ps')).
Proof.
  split; [apply flatten_parts|]. split; [reflexivity|].
  intros Heq. rewrite !flatten_parts.
  rewrite <- (map_ext _ _ part_line_redact ps), <- (map_ext _ _ part_line_redact ps').
  rewrite <- !(map_map redact part_line). now rewrite Heq.
Qed.

Lemma flatten_content_hides_images_witness :
  map redact [TextPart "Where am I?"; ImagePart "base64" "image/png" "AAAA"]
  = map redact [TextPart "Where am I?"; ImagePart "base64" "image/jpeg" "BBBB"] /\
  flatten_content (Parts [TextPart "Where am I?"; ImagePart "base64" "image/png" "AAAA"])
  = flatten_content (Parts [TextPart "Where am I?"; ImagePart "base64" "image/jpeg" "BBBB"]).
Proof.
  split; [reflexivity|].
  apply (proj2 (proj2 (flatten_content_hides_images
                         [TextPart "Where am I?"; ImagePart "base64" "image/png" "AAAA"]
                         [TextPart "Where am I?"; ImagePart "base64" "image/jpeg" "BBBB"]
                         ""))).
  reflexivity.
Defined.

Section Flattening.

Variable W : World.

(** Extra X2.  [_format_messages_for_ollama] leaves the agent as it is and
    returns the system prompt followed by one message per stored turn, in
    the order of the history, each with the role of its turn and the
    flattened content of its turn. *)
Theorem format_messages_shape (st : SimpleAgent W) :
  exists messages,
    _format_messages_for_ollama st = Returns messages st /\
    length messages = S (length (message_history st)) /\
    hd_error messages = Some (mkMsg "system" SYSTEM_PROMPT) /\
    map msg_role (tl messages) = map turn_role (message_history st) /\
    (forall i,
        nth_error messages (S i)
        = option_map (fun t => mkMsg (turn_role t) (flatten_content (turn_content t)))
                     (nth_error (message_history st) i)).
Proof.
  eexists. split; [apply format_messages|].
  split; [simpl; now rewrite length_map|]. split; [reflexivity|]. split.
  - simpl. rewrite map_map. reflexivity.
  - intros i. simpl. apply nth_error_map.
Qed.

End Flattening.

(** ** The adapter and the executor, case by case *)

Section Cases.

Variable W : World.

(** Extra X3.  Every call of [chat_via_client] makes exactly one request to
    the backend, with the configured model and token limit, and with no
    tools when the given tool list is absent or empty.  What it hands back
    follows the backend: the reply object when the backend answers, the
    error mapping when it raises an [Exception]; a [KeyboardInterrupt] is
    not caught and leaves [chat_via_client] as it came. *)
Theorem chat_via_client_outcomes (st : SimpleAgent W) messages tools :
  trace (final_state (chat_via_client messages tools st))
  = (trace st ++
     [BackendChat (model_name (ollama st)) messages (max_tokens (ollama st))
        (tools_or_none tools)])%list /\
  (tools_or_none tools = None <-> tools = None \/ tools = Some []) /\
  match fst (backend_chat W (model_name (ollama st)) messages (max_tokens (ollama st))
               (tools_or_none tools) (client (ollama st))) with
  | Ok r => exists st', chat_via_client messages tools st = Returns (Obj r) st'
  | Err (Exception _ msg) =>
      exists st', chat_via_client messages tools st
                  = Returns (Mapping ("Error: " ++ msg)) st'
  | Err KeyboardInterrupt =>
      exists st', chat_via_client messages tools st = Raises KeyboardInterrupt st'
  end.
Proof.
  split; [|split].
  - unfold chat_via_client, try_except, bind, client_chat. cbv zeta.
    destruct (backend_chat _ _ _ _ _ _) as [[r|[cls msg|]] b']; reflexivity.
  - destruct tools as [[|t ts]|]; simpl; split; auto; try discriminate.
    intros [H|H]; discriminate.
  - unfold chat_via_client, try_except, bind, client_chat. cbv zeta.
    destruct (backend_chat _ _ _ _ _ _) as [[r|[cls msg|]] b']; simpl; eauto.
Qed.

(** Extra X4.  When a registered action raises an [Exception], the
    executor records an error entry with the text of the exception and
    goes on with the calls that follow; a [KeyboardInterrupt] raised by the
    action is not caught, and the results collected so far are lost. *)
Theorem executor_captures_action_fault (st : SimpleAgent W) buttons rest results e' :
  (forall cls msg,
      emu_press_buttons W buttons (VBool true) (emulator st) = (Err (Exception cls msg), e') ->
      call_tools (get_available_functions W)
        (mkToolCall (mkFunction "press_buttons" [("buttons", buttons)]) :: rest) results st
      = call_tools (get_available_functions W) rest
          (results ++ [mkToolResult "press_buttons" [("buttons", buttons)] (Error msg)])
          (set_emulator e' (log (EmuPress buttons (VBool true)) st))) /\
  (emu_press_buttons W buttons (VBool true) (emulator st) = (Err KeyboardInterrupt, e') ->
   call_tools (get_available_functions W)
     (mkToolCall (mkFunction "press_buttons" [("buttons", buttons)]) :: rest) results st
   = Raises KeyboardInterrupt (set_emulator e' (log (EmuPress buttons (VBool true)) st))).
Proof.
  split; [intros cls msg Hpress | intros Hpress];
    cbn [call_tools]; unfold bind, call_one_tool; simpl;
    unfold try_except, bind, press_buttons; simpl;
    unfold emu_call; rewrite Hpress; reflexivity.
Qed.

(** Extra X5.  A tool call whose arguments do not fit the action is
    reported as an error entry and the emulator is not touched: [press]
    without a [button] or with any other keyword, [press_buttons] without
    [buttons].  A call of [press] with a [button] alone asks the emulator
    for that one button, waiting. *)
Theorem executor_reports_bad_arguments (st : SimpleAgent W) args :
  (assoc "button" args = None \/
   (exists kv, In kv args /\ String.eqb (fst kv) "button" = false) ->
   exists msg,
     call_one_tool (get_available_functions W) (mkToolCall (mkFunction "press" args)) st
     = Returns (mkToolResult "press" args (Error msg)) st) /\
  (assoc "buttons" args = None ->
   exists msg,
     call_one_tool (get_available_functions W)
       (mkToolCall (mkFunction "press_buttons" args)) st
     = Returns (mkToolResult "press_buttons" args (Error msg)) st) /\
  (forall b,
      trace (final_state
               (call_one_tool (get_available_functions W)
                  (mkToolCall (mkFunction "press" [("button", b)])) st))
      = (trace st ++ [EmuPress (VList [b]) (VBool true)])%list).
Proof.
  split; [|split].
  - intros H. unfold call_one_tool; simpl. unfold try_except, bind, press.
    destruct (find _ args) as [[k v]|] eqn:Efind; [eexists; reflexivity|].
    destruct H as [H|(kv & Hin & Hkey)].
    + rewrite H. eexists; reflexivity.
    + pose proof (find_none _ _ Efind kv Hin) as Hf. cbv beta in Hf.
      rewrite Hkey in Hf. discriminate.
  - intros H. unfold call_one_tool; simpl. unfold try_except, bind, press_buttons.
    destruct (find _ args) as [[k v]|]; [eexists; reflexivity|].
    rewrite H. eexists; reflexivity.
  - intros b. unfold call_one_tool; simpl.
    unfold try_except, bind, press, press_buttons; simpl. unfold emu_call.
    destruct (emu_press_buttons _ _ _ _) as [[v|[cls msg|]] e']; reflexivity.
Qed.

Lemma call_tools_unknown calls results (st : SimpleAgent W) :
  Forall (fun c => assoc (fn_name (tc_function c)) (get_available_functions W) = None)
         calls ->
  exists entries,
    call_tools (get_available_functions W) calls results st
    = Returns (results ++ entries)%list st /\
    length entries = length calls.
Proof.
  intros Hall. revert results.
  induction Hall as [|c calls Hc Hall IH]; intros results.
  - exists []. rewrite app_nil_r. split; reflexivity.
  - cbn [call_tools]. unfold bind, call_one_tool. rewrite Hc. cbn [ret].
    destruct (IH (results ++
                  [mkToolResult (fn_name (tc_function c)) (fn_arguments (tc_function c))
                     (Error ("Function " ++ fn_name (tc_function c) ++ " not found"))])%list)
      as (entries & -> & Hlen).
    eexists (_ :: entries). rewrite <- app_assoc. split; [reflexivity|].
    simpl. now rewrite Hlen.
Qed.

(** The agent right after [_process_response] has appended the reply. *)
Lemma process_response_unfold (response : Reply) (st : SimpleAgent W) :
  _process_response response st
  = bind (call_tool_from_response response (get_available_functions W))
      (fun results =>
         match results with
         | _ :: _ => ret tt
         | [] => _parse_and_execute_text_response (response_content response)
         end)
      (log (HistoryAppend (mkTurn "assistant" (Text (response_content response))))
           (set_message_history
              (message_history st ++ [mkTurn "assistant" (Text (response_content response))])
              st)).
Proof. reflexivity. Qed.

(** Extra X6.  As soon as a reply carries a tool call, the text fallback
    parser is not run: when every requested tool is unknown, the reply is
    appended and nothing is asked of the emulator, whatever buttons the
    text names. *)
Theorem tool_calls_suppress_text_fallback (st : SimpleAgent W) r call calls :
  message_tool_calls (response_message r) = Some (call :: calls) ->
  Forall (fun c => assoc (fn_name (tc_function c)) (get_available_functions W) = None)
         (call :: calls) ->
  _process_response (Obj r) st
  = Returns tt
      (log (HistoryAppend (mkTurn "assistant" (Text (response_content (Obj r)))))
           (set_message_history
              (message_history st ++ [mkTurn "assistant" (Text (response_content (Obj r)))])
              st)).
Proof.
  intros Hcalls Hunknown. rewrite process_response_unfold.
  unfold call_tool_from_response, bind at 2. cbn [attr_message ret].
  rewrite Hcalls. unfold bind.
  match goal with
  | |- context [call_tools _ _ [] ?s] =>
      destruct (call_tools_unknown [] s Hunknown) as (entries & -> & Hlen)
  end.
  destruct entries; [discriminate | reflexivity].
Qed.

(** Extra X7.  A reply without tool calls whose content is a text that
    names no button is not an error: it is appended to the history,
    nothing is asked of the emulator, and [_process_response] returns.
    When the content of such a reply is [None], it is appended all the
    same, and [_process_response] then raises [AttributeError], for the
    text fallback calls [upper] on it. *)
Theorem reply_without_action_is_noop (st : SimpleAgent W) r :
  tool_requests (Obj r) = [] ->
  (forall text,
      response_content (Obj r) = PStr text ->
      buttons_to_press W text = [] ->
      _process_response (Obj r) st
      = Returns tt
          (log (HistoryAppend (mkTurn "assistant" (Text (PStr text))))
               (set_message_history
                  (message_history st ++ [mkTurn "assistant" (Text (PStr text))])
                  st))) /\
  (response_content (Obj r) = PNone ->
   _process_response (Obj r) st
   = Raises (Exception "AttributeError" "'NoneType' object has no attribute 'upper'")
       (log (HistoryAppend (mkTurn "assistant" (Text PNone)))
            (set_message_history
               (message_history st ++ [mkTurn "assistant" (Text PNone)])
               st))).
Proof.
  intros Hnone. split.
  - intros text Htext Hbuttons. rewrite process_response_unfold.
    unfold bind. rewrite (call_tool_from_response_no_calls _ _ _ Hnone).
    rewrite Htext. unfold _parse_and_execute_text_response. now rewrite Hbuttons.
  - intros Htext. rewrite process_response_unfold.
    unfold bind. rewrite (call_tool_from_response_no_calls _ _ _ Hnone).
    rewrite Htext. reflexivity.
Qed.

(** Extra X8.  In the text fallback the emulator is called outside any
    [try]: when the press of the buttons found in the text raises,
    whatever the exception, [_process_response] raises it, after the reply
    was appended. *)
Theorem text_fallback_fault_propagates (st : SimpleAgent W) r text b bs e0 e' :
  tool_requests (Obj r) = [] ->
  response_content (Obj r) = PStr text ->
  buttons_to_press W text = b :: bs ->
  emu_press_buttons W (VList (map VStr (b :: bs))) (VBool true) (emulator st) = (Err e0, e') ->
  _process_response (Obj r) st
  = Raises e0
      (set_emulator e'
         (log (EmuPress (VList (map VStr (b :: bs))) (VBool true))
            (log (HistoryAppend (mkTurn "assistant" (Text (response_content (Obj r)))))
               (set_message_history
                  (message_history st ++
                   [mkTurn "assistant" (Text (response_content (Obj r)))])
                  st)))).
Proof.
  intros Hnone Htext Hbuttons Hpress. rewrite process_response_unfold.
  unfold bind. rewrite (call_tool_from_response_no_calls _ _ _ Hnone).
  rewrite Htext. unfold _parse_and_execute_text_response. rewrite Hbuttons.
  unfold bind, emu_call. cbn [emulator log set_message_history].
  rewrite Hpress. reflexivity.
Qed.

End Cases.

(** ** More on the button scanner *)

Lemma contains_trans (a b h : string) :
  Str.contains a b = true -> Str.contains b h = true -> Str.contains a h = true.
Proof.
  rewrite !StrFacts.contains_spec.
  intros (p1 & s1 & ->) (p2 & s2 & ->).
  exists (p2 ++ p1), (s1 ++ s2). now rewrite !append_assoc.
Qed.

Section Scanner.

Variable W : World.

Lemma In_buttons_to_press (b content : string) :
  In b (buttons_to_press W content)
  <-> In b valid_buttons /\ Str.contains b (upper W content) = true.
Proof. rewrite buttons_to_press_filter, filter_In. reflexivity. Qed.

(** Extra X9.  The scanner tests substrings, and START contains an A: a
    text in which START is found always has A pressed as well, and A comes
    first in the batch. *)
Theorem start_is_pressed_with_a (content : string) :
  In "START" (buttons_to_press W content) ->
  In "A" (buttons_to_press W content) /\
  hd_error (buttons_to_press W content) = Some "A".
Proof.
  intros H. apply In_buttons_to_press in H as [_ H].
  assert (HA : Str.contains "A" (upper W content) = true)
    by (apply (contains_trans "A" "START"); [reflexivity | exact H]).
  split.
  - apply In_buttons_to_press. split; [simpl; auto | exact HA].
  - rewrite buttons_to_press_filter. unfold valid_buttons. cbn [filter].
    now rewrite HA.
Qed.

(** Extra X10.  The scan does not depend on the case of the text, and text
    put before or after never removes a button from the batch. *)
Theorem buttons_to_press_monotone (content before after b : string) :
  buttons_to_press W (Str.upper content) = buttons_to_press W content /\
  (In b (buttons_to_press W content) ->
   In b (buttons_to_press W (before ++ content ++ after))).
Proof.
  split.
  - unfold buttons_to_press. now rewrite upper_fold.
  - rewrite !In_buttons_to_press. intros [Hin Hc]. split; [exact Hin|].
    rewrite !upper_distr.
    apply StrFacts.contains_spec in Hc as (pre & suf & ->).
    apply StrFacts.contains_spec.
    exists (upper W before ++ pre), (suf ++ upper W after).
    now rewrite !append_assoc.
Qed.

End Scanner.

Lemma start_is_pressed_with_a_witness :
  In "START" (buttons_to_press Demo.replay_world "Press Start to open the menu") /\
  In "A" (buttons_to_press Demo.replay_world "Press Start to open the menu") /\
  hd_error (buttons_to_press Demo.replay_world "Press Start to open the menu") = Some "A".
Proof.
  assert (H : In "START" (buttons_to_press Demo.replay_world "Press Start to open the menu"))
    by (vm_compute; auto).
  split; [exact H|].
  apply (@start_is_pressed_with_a Demo.replay_world "Press Start to open the menu" H).
Defined.

Lemma buttons_to_press_monotone_witness :
  In "UP" (buttons_to_press Demo.replay_world "go up") /\
  In "UP" (buttons_to_press Demo.replay_world
             ("I think we should " ++ "go up" ++ " the stairs")).
Proof.
  assert (H : In "UP" (buttons_to_press Demo.replay_world "go up")) by (vm_compute; auto).
  split; [exact H|].
  apply (proj2 (@buttons_to_press_monotone Demo.replay_world
                  "go up" "I think we should " " the stairs" "UP") H).
Defined.

(** ** Summarization when a collaborator fails *)

Section SummarizeFaults.

Variable W : World.

(** Extra X11.  When the backend call of a summarization raises an
    [Exception], the history is replaced all the same: the one turn that is
    left carries the error text in the place of the summary. *)
Theorem summarize_history_keeps_error_text (st : SimpleAgent W) img e' cls msg :
  emu_get_screenshot W (emulator st) = (Ok img, e') ->
  (forall msgs,
      fst (backend_chat W (model_name (ollama st)) msgs (max_tokens (ollama st)) None
             (client (ollama st))) = Err (Exception cls msg)) ->
  exists st',
    summarize_history st = Returns tt st' /\
    message_history st'
    = [summary_turn (max_history st) ("Error: " ++ msg)
         (get_screenshot_base64 W img (Some 2))].
Proof.
  intros Hshot Hfail.
  unfold summarize_history, request_summary, bind, emu_call.
  rewrite Hshot. rewrite format_messages.
  unfold chat_via_client, try_except, bind, client_chat. cbv zeta. simpl.
  match goal with
  | |- context [backend_chat W ?m ?msgs ?n ?t ?b] =>
      specialize (Hfail msgs); destruct (backend_chat W m msgs n t b) as [r b']
  end.
  simpl in Hfail. subst r. simpl. eexists. split; reflexivity.
Qed.

(** Extra X12.  When the screenshot of a summarization cannot be taken,
    [summarize_history] raises that exception at once: the backend is not
    asked and the history is as it was. *)
Theorem summarize_history_needs_screenshot (st : SimpleAgent W) e0 e' :
  emu_get_screenshot W (emulator st) = (Err e0, e') ->
  summarize_history st = Raises e0 (set_emulator e' (log EmuScreenshot st)) /\
  message_history (final_state (summarize_history st)) = message_history st /\
  trace (final_state (summarize_history st)) = (trace st ++ [EmuScreenshot])%list.
Proof.
  intros Hshot.
  assert (H : summarize_history st = Raises e0 (set_emulator e' (log EmuScreenshot st))).
  { unfold summarize_history, request_summary, bind, emu_call. now rewrite Hshot. }
  rewrite H. repeat split.
Qed.

(** Extra X13.  [_get_next_action] appends the observation only after the
    screenshot, the coordinates and the location were all obtained: if it
    raises with the history changed, the turn appended is the observation
    and the exception is a [KeyboardInterrupt] from the backend call;
    otherwise the history is as it was. *)
Theorem get_next_action_raise (st st' : SimpleAgent W) e0 :
  _get_next_action st = Raises e0 st' ->
  message_history st' = message_history st \/
  (e0 = KeyboardInterrupt /\
   exists t, turn_role t = "user" /\
             message_history st' = (message_history st ++ [t])%list).
Proof.
  unfold _get_next_action, bind. intros H.
  pose proof (Quiet_emu_call EmuScreenshot (emu_get_screenshot W) eq_refl st) as Q1.
  destruct (emu_call EmuScreenshot (emu_get_screenshot W) st) as [img st1|e1 st1];
    simpl in Q1; [|injection H as _ <-; left; apply Q1].
  pose proof (Quiet_emu_call EmuCoordinates (emu_get_coordinates W) eq_refl st1) as Q2.
  destruct (emu_call EmuCoordinates (emu_get_coordinates W) st1) as [c st2|e2 st2];
    simpl in Q2; [|injection H as _ <-; left; rewrite (proj2 Q2); apply Q1].
  pose proof (Quiet_emu_call EmuLocation (emu_get_location W) eq_refl st2) as Q3.
  destruct (emu_call EmuLocation (emu_get_location W) st2) as [l st3|e3 st3];
    simpl in Q3;
    [|injection H as _ <-; left; rewrite (proj2 Q3), (proj2 Q2); apply Q1].
  cbn [history_append modify] in H. rewrite format_messages in H.
  match type of H with
  | chat_via_client ?msgs ?tools ?s = _ =>
      pose proof (Quiet_chat_via_client msgs tools s) as Q4;
      unfold chat_via_client, try_except, bind, client_chat in H; cbv zeta in H;
      destruct (backend_chat W _ _ _ _ _) as [[r|[cls msg|]] b']; try discriminate
  end.
  right. injection H as <- <-. split; [reflexivity|].
  eexists. split; [|cbn [message_history set_backend log set_message_history];
                    rewrite (proj2 Q3), (proj2 Q2), (proj2 Q1); reflexivity].
  reflexivity.
Qed.

End SummarizeFaults.

(** ** More on the run loop *)

Lemma step_roles_snoc (n : nat) :
  step_roles (S n) = (step_roles n ++ ["user"; "assistant"])%list.
Proof. induction n as [|n IH]; [reflexivity|]. simpl in *. now rewrite <- IH. Qed.

Section RunMore.

Variable W : World.

(** What a returning loop has done to the flags and the configuration. *)
Lemma run_loop_result (fuel : nat) (num_steps : Z) :
  forall steps_completed (st st' : SimpleAgent W) result,
    running st = true ->
    num_steps - steps_completed <= Z.of_nat fuel ->
    run_loop fuel num_steps steps_completed st = Returns result st' ->
    result = Z.max steps_completed num_steps /\
    running st' = true /\
    max_history st' = max_history st /\
    model_name (ollama st') = model_name (ollama st) /\
    max_tokens (ollama st') = max_tokens (ollama st).
Proof.
  induction fuel as [|fuel IH]; intros k st st' result Hrun Hfuel H.
  - injection H as <- <-. repeat split; auto. simpl in Hfuel. lia.
  - cbn [run_loop] in H. rewrite Hrun in H. cbn [andb] in H.
    destruct (k <? num_steps) eqn:E.
    + apply Z.ltb_lt in E.
      apply bind_returns in H as ([] & st1 & Hstep & H).
      apply bind_returns in H as ([] & st2 & Hsum & H).
      apply step_grows in Hstep as (t1 & t2 & G & _).
      pose proof (summarize_if_needed_frame st1) as F. rewrite Hsum in F; simpl in F.
      apply IH in H as (-> & Hr & Hm & Hmod & Htok); [| |lia].
      * repeat split; [lia | exact Hr | | |].
        -- now rewrite Hm, (frame_max_history F), (grows_max_history G).
        -- now rewrite Hmod, (frame_model F), (grows_model G).
        -- now rewrite Htok, (frame_tokens F), (grows_tokens G).
      * now rewrite (frame_running F), (grows_running G).
    + apply Z.ltb_ge in E. injection H as <- <-. repeat split; auto. lia.
Qed.

(** Extra X14.  When [run] returns, the count it returns is the step
    budget, or 0 for a negative budget; the agent is still flagged as
    running (only [stop] clears the flag), and [max_history], the model
    name and the token limit are what they were. *)
Theorem run_returns_budget (num_steps result : Z) (st st' : SimpleAgent W) :
  run num_steps st = Returns result st' ->
  result = Z.max 0 num_steps /\
  running st' = true /\
  max_history st' = max_history st /\
  model_name (ollama st') = model_name (ollama st) /\
  max_tokens (ollama st') = max_tokens (ollama st).
Proof.
  unfold run. intros H.
  apply bind_returns in H as ([] & st1 & Hstart & H).
  apply start_grows in Hstart as (t & G & _).
  apply run_loop_result in H as (-> & Hr & Hm & Hmod & Htok); [| |lia].
  - repeat split; [exact Hr | | |].
    + now rewrite Hm, (grows_max_history G).
    + now rewrite Hmod, (grows_model G).
    + now rewrite Htok, (grows_tokens G).
  - now rewrite (grows_running G).
Qed.

(** Extra X15.  With a step budget of 0 or less, [run] still initializes
    the emulator and appends the initial observation (a text part and the
    screenshot), takes no step, asks nothing of the backend and
    returns 0. *)
Theorem run_without_budget (num_steps : Z) (st : SimpleAgent W) e1 img e2 :
  num_steps <= 0 ->
  emu_initialize W (emulator st) = (Ok tt, e1) ->
  emu_get_screenshot W e1 = (Ok img, e2) ->
  exists st',
    run num_steps st = Returns 0 st' /\
    trace st'
    = (trace st ++ [EmuInitialize; EmuScreenshot; HistoryAppend (initial_turn W img)])%list /\
    message_history st' = (message_history st ++ [initial_turn W img])%list.
Proof.
  intros Hn Hinit Hshot.
  destruct (start_returns st Hinit Hshot) as (st' & Hstart & Htrace & Hhist).
  exists st'. split; [|auto].
  unfold run, bind. rewrite Hstart.
  replace (Z.to_nat num_steps) with O by lia. reflexivity.
Qed.

(** Extra X16.  In every state in which [run], started with an empty
    history, tests its loop condition or evaluates its summarization
    check, the roles in the history are: one user turn (the initial
    observation or the summary), then a user turn and an assistant turn
    for each step since.  The state in which [run] returns is such a
    state. *)
Theorem history_roles_invariant (st0 : SimpleAgent W) :
  message_history st0 = [] ->
  (forall p st,
      reaches st0 p st ->
      exists k, map turn_role (message_history st) = "user" :: step_roles k) /\
  (forall num_steps result st',
      run num_steps st0 = Returns result st' ->
      exists k, map turn_role (message_history st') = "user" :: step_roles k).
Proof.
  intros Hfresh.
  assert (Hinv : forall p st,
             reaches st0 p st ->
             exists k, map turn_role (message_history st) = "user" :: step_roles k).
  { intros p st Hreach.
    induction Hreach as [st Hstart | st st' Hreach IH Hrun Hstep | st st' Hreach IH Hsum].
    - apply start_grows in Hstart as (t & G & R).
      exists O. rewrite (grows_history G). cbn [set_running message_history].
      rewrite Hfresh. simpl. now rewrite R.
    - destruct IH as (k & IH).
      apply step_grows in Hstep as (t1 & t2 & G & R1 & R2).
      exists (S k). rewrite (grows_history G), map_app, IH, step_roles_snoc.
      simpl. now rewrite R1, R2.
    - unfold summarize_if_needed in Hsum. destruct (_ >? _).
      + destruct (summarize_history_outcome st) as [_ H]. rewrite Hsum in H.
        destruct H as (text & shot & ->). now exists O.
      + injection Hsum as <-. exact IH. }
  split; [exact Hinv|].
  intros num_steps result st' Hrun. apply (Hinv AtLoopTest).
  unfold run in Hrun. apply bind_returns in Hrun as ([] & st1 & Hstart & Hloop).
  eapply run_loop_reaches; [|exact Hloop]. now apply reach_start.
Qed.

End RunMore.

Lemma run_returns_budget_witness :
  run (-5) (init Demo.replay_world 0%nat [])
  = Returns 0 (final_state (run (-5) (init Demo.replay_world 0%nat []))) /\
  0 = Z.max 0 (-5) /\
  running (final_state (run (-5) (init Demo.replay_world 0%nat []))) = true.
Proof.
  assert (H : run (-5) (init Demo.replay_world 0%nat [])
              = Returns 0 (final_state (run (-5) (init Demo.replay_world 0%nat []))))
    by reflexivity.
  split; [exact H|].
  destruct (run_returns_budget _ _ H) as (H1 & H2 & _).
  split; [exact H1 | exact H2].
Defined.

Lemma run_without_budget_witness :
  0 <= 0 /\
  emu_initialize Demo.replay_world (emulator (init Demo.replay_world 0%nat []))
  = (Ok tt, 0%nat) /\
  emu_get_screenshot Demo.replay_world 0%nat = (Ok tt, 0%nat) /\
  exists st',
    run 0 (init Demo.replay_world 0%nat []) = Returns 0 st' /\
    trace st'
    = [EmuInitialize; EmuScreenshot; HistoryAppend (initial_turn Demo.replay_world tt)] /\
    message_history st' = [initial_turn Demo.replay_world tt].
Proof.
  split; [lia|]. split; [reflexivity|]. split; [reflexivity|].
  apply (@run_without_budget Demo.replay_world 0 (init Demo.replay_world 0%nat [])
           0%nat tt 0%nat); [lia | reflexivity | reflexivity].
Defined.

Lemma history_roles_invariant_witness :
  message_history (init Demo.replay_world 0%nat []) = [] /\
  forall num_steps result st',
    run num_steps (init Demo.replay_world 0%nat []) = Returns result st' ->
    exists k, map turn_role (message_history st') = "user" :: step_roles k.
Proof.
  split; [reflexivity|].
  apply (proj2 (@history_roles_invariant Demo.replay_world
                  (init Demo.replay_world 0%nat []) eq_refl)).
Defined.

(** ** The requests that reach the backend *)

Section Requests.

Variable W : World.

Lemma not_chat_request_ok bound evs :
  Forall not_chat evs -> Forall (request_ok bound) evs.
Proof.
  apply Forall_impl. intros [] H; simpl in *; auto. contradiction.
Qed.

(** The request of a step: the system prompt, the flattened history with
    the fresh observation at its end, and the declared tools. *)
Lemma get_next_action_trace (st st' : SimpleAgent W) response :
  _get_next_action st = Returns response st' ->
  exists t,
    trace st'
    = (trace st ++
       [EmuScreenshot; EmuCoordinates; EmuLocation; HistoryAppend t;
        BackendChat (model_name (ollama st))
          (mkMsg "system" SYSTEM_PROMPT ::
           map (fun msg => mkMsg (turn_role msg) (flatten_content (turn_content msg)))
               (message_history st ++ [t]))
          (max_tokens (ollama st)) (Some AVAILABLE_TOOLS)])%list.
Proof.
  unfold _get_next_action, bind, emu_call. intros H.
  destruct (emu_get_screenshot W (emulator st)) as [[img|e] e1]; [|discriminate].
  cbn [emulator set_emulator log] in H.
  destruct (emu_get_coordinates W e1) as [[c|e] e2]; [|discriminate].
  cbn [emulator set_emulator log] in H.
  destruct (emu_get_location W e2) as [[l|e] e3]; [|discriminate].
  cbn [history_append modify] in H. rewrite format_messages in H.
  unfold chat_via_client, try_except, bind, client_chat in H. cbv zeta in H.
  destruct (backend_chat W _ _ _ _ _) as [[r|[cls msg|]] b']; try discriminate;
    injection H as _ <-; eexists; simpl; now rewrite <- !app_assoc.
Qed.

Lemma step_requests (st st' : SimpleAgent W) :
  step st = Returns tt st' ->
  requests_bounded st ->
  history_length st <= 2 * max_history st - 1 ->
  requests_bounded st'.
Proof.
  unfold requests_bounded, history_length. intros Hstep Hb Hlen.
  pose proof Hstep as Hgrows. apply step_grows in Hgrows as (t1 & t2 & G & _).
  rewrite (grows_max_history G).
  unfold step in Hstep. apply bind_returns in Hstep as (response & st1 & Hget & Hproc).
  apply get_next_action_trace in Hget as (t & Htr1).
  destruct (Adds_process_response response st1) as (evs & Htr2 & Hevs).
  rewrite Hproc in Htr2. cbn [final_state] in Htr2.
  rewrite Htr2, Htr1.
  apply Forall_app. split; [apply Forall_app; split; [exact Hb|]|].
  - do 4 (constructor; [exact I|]). constructor; [|constructor].
    split; [reflexivity | split; [|right; reflexivity]].
    cbn [length]. rewrite length_map, length_app. cbn [length]. lia.
  - now apply not_chat_request_ok.
Qed.

Lemma summarize_requests (st st' : SimpleAgent W) :
  summarize_if_needed st = Returns tt st' ->
  requests_bounded st ->
  history_length st <= 2 * max_history st + 1 ->
  requests_bounded st'.
Proof.
  unfold requests_bounded, history_length. intros Hsum Hb Hlen.
  pose proof (summarize_if_needed_frame st) as F. rewrite Hsum in F; simpl in F.
  rewrite (frame_max_history F).
  unfold summarize_if_needed in Hsum.
  destruct (_ >? _); [|now injection Hsum as <-].
  destruct (emu_get_screenshot W (emulator st)) as [[img|e] e'] eqn:Eshot.
  - pose proof (request_summary_trace st Eshot) as Htr.
    unfold summarize_history in Hsum.
    apply bind_returns in Hsum as ([shot text] & st1 & Hreq & Hmod).
    rewrite Hreq in Htr. cbn [final_state] in Htr.
    injection Hmod as <-. cbn [trace set_message_history]. rewrite Htr.
    apply Forall_app. split; [exact Hb|].
    constructor; [exact I|]. constructor; [|constructor].
    split; [reflexivity | split; [|left; reflexivity]].
    rewrite length_app. cbn [length]. rewrite length_map. lia.
  - unfold summarize_history, request_summary, bind, emu_call in Hsum.
    rewrite Eshot in Hsum. discriminate.
Qed.

(** Extra X17.  Summarization bounds what is sent to the backend.  For a
    run started with an empty history and [max_history >= 1], every
    request made to the backend up to any loop test or summarization check,
    and so up to the return of [run], starts with the system prompt,
    holds at most [2 * max_history + 3] messages (23 for a fresh agent) and
    declares either no tools or the tools of [AVAILABLE_TOOLS]. *)
Theorem backend_requests_bounded (st0 : SimpleAgent W) :
  message_history st0 = [] ->
  1 <= max_history st0 ->
  requests_bounded st0 ->
  (forall p st, reaches st0 p st -> requests_bounded st) /\
  (forall num_steps result st',
      run num_steps st0 = Returns result st' -> requests_bounded st').
Proof.
  intros Hfresh Hmax Hb0.
  assert (Hinv : forall p st, reaches st0 p st -> requests_bounded st).
  { intros p st Hreach.
    induction Hreach as [st Hstart | st st' Hreach IH Hrun Hstep | st st' Hreach IH Hsum].
    - destruct (Adds_start st0) as (evs & Htr & Hevs).
      rewrite Hstart in Htr. cbn [final_state] in Htr.
      apply start_grows in Hstart as (t & G & _).
      unfold requests_bounded. rewrite (grows_max_history G), Htr.
      apply Forall_app. split; [exact Hb0 | now apply not_chat_request_ok].
    - destruct (reaches_invariant Hfresh Hmax Hreach) as (_ & Hodd & Hle).
      apply (step_requests Hstep IH).
      now apply odd_le_even.
    - destruct (reaches_invariant Hfresh Hmax Hreach) as (_ & _ & Hle).
      apply (summarize_requests Hsum IH Hle). }
  split; [exact Hinv|].
  intros num_steps result st' Hrun. apply (Hinv AtLoopTest).
  unfold run in Hrun. apply bind_returns in Hrun as ([] & st1 & Hstart & Hloop).
  eapply run_loop_reaches; [|exact Hloop]. now apply reach_start.
Qed.

End Requests.

Lemma backend_requests_bounded_witness :
  message_history (init Demo.replay_world 0%nat []) = [] /\
  1 <= max_history (init Demo.replay_world 0%nat []) /\
  requests_bounded (init Demo.replay_world 0%nat []) /\
  forall num_steps result st',
    run num_steps (init Demo.replay_world 0%nat []) = Returns result st' ->
    requests_bounded st'.
Proof.
  assert (H1 : 1 <= max_history (init Demo.replay_world 0%nat []))
    by (vm_compute; discriminate).
  assert (H2 : requests_bounded (init Demo.replay_world 0%nat [])) by constructor.
  split; [reflexivity|]. split; [exact H1|]. split; [exact H2|].
  apply (proj2 (@backend_requests_bounded Demo.replay_world
                  (init Demo.replay_world 0%nat []) eq_refl H1 H2)).
Defined.

(** ** The entry point *)

Section Main.

Variable W : World.

Lemma run_loop_total (Hcalm : calm W) (fuel : nat) (num_steps : Z) :
  forall steps_completed (st : SimpleAgent W),
  exists result st', run_loop fuel num_steps steps_completed st = Returns result st'.
Proof.
  induction fuel as [|fuel IH]; intros k st; cbn [run_loop].
  - eexists _, _. reflexivity.
  - destruct (running st && (k <? num_steps)); [|eexists _, _; reflexivity].
    unfold bind.
    destruct (step_calm Hcalm st) as (st1 & ->).
    destruct (summarize_if_needed_calm Hcalm st1) as (st2 & ->).
    apply IH.
Qed.


(** Extra X19.  If the emulator's teardown never raises, [main] always
    ends with the agent flagged as stopped; it returns when [run] returned
    or was interrupted by a [KeyboardInterrupt], and it raises exactly the
    [Exception] that [run] raised, after the teardown. *)
Theorem main_routes_exceptions (steps : Z) (e : Emu W) (b : Backend W) :
  (forall e1, is_ok (fst (emu_stop W e1)) = true) ->
  running (final_state (main W steps e b)) = false /\
  match main W steps e b with
  | Returns _ _ =>
      exists st1,
        (exists k, run steps (init W e b) = Returns k st1) \/
        run steps (init W e b) = Raises KeyboardInterrupt st1
  | Raises ex _ =>
      exists cls msg st1,
        ex = Exception cls msg /\
        run steps (init W e b) = Raises (Exception cls msg) st1
  end.
Proof.
  intros Hstop. unfold main.
  assert (Hs : forall st1 : SimpleAgent W,
             exists st2, stop st1 = Returns tt st2 /\ running st2 = false).
  { intros st1. destruct (stop_once st1) as (_ & Hflag & Hret).
    rewrite Hstop in Hret.
    destruct (stop st1) as [[] st2|e2 st2]; [eauto | discriminate]. }
  destruct (run steps (init W e b)) as [k st1|[cls msg|] st1];
    destruct (Hs st1) as (st2 & -> & Hflag); simpl; (split; [exact Hflag|]); eauto.
Qed.

End Main.


Lemma main_routes_exceptions_witness :
  (forall e1, is_ok (fst (emu_stop Demo.offline_world e1)) = true) /\
  running (final_state (main Demo.offline_world 3 0%nat tt)) = false.
Proof.
  assert (H : forall e1, is_ok (fst (emu_stop Demo.offline_world e1)) = true)
    by (intros e1; reflexivity).
  split; [exact H|].
  apply (proj1 (@main_routes_exceptions Demo.offline_world 3 0%nat tt H)).
Defined.

(** ** Witnesses for the case analyses *)

Lemma executor_captures_action_fault_witness :
  emu_press_buttons Faulty.world (VList [VStr "x"]) (VBool true)
    (emulator (init Faulty.world true []))
  = (Err (Exception "ValueError" "Invalid button"), true) /\
  call_tools (get_available_functions Faulty.world)
    (mkToolCall (mkFunction "press_buttons" [("buttons", VList [VStr "x"])]) ::
     [mkToolCall (mkFunction "jump" [])]) [] (init Faulty.world true [])
  = call_tools (get_available_functions Faulty.world) [mkToolCall (mkFunction "jump" [])]
      [mkToolResult "press_buttons" [("buttons", VList [VStr "x"])] (Error "Invalid button")]
      (@set_emulator Faulty.world true
         (log (EmuPress (VList [VStr "x"]) (VBool true)) (init Faulty.world true []))).
Proof.
  split; [reflexivity|].
  apply (proj1 (@executor_captures_action_fault Faulty.world (init Faulty.world true [])
                  (VList [VStr "x"]) [mkToolCall (mkFunction "jump" [])] [] true)
           "ValueError" "Invalid button").
  reflexivity.
Defined.

Lemma executor_reports_bad_arguments_witness :
  assoc "buttons" [("button", VStr "a")] = None /\
  exists msg,
    call_one_tool (get_available_functions Demo.replay_world)
      (mkToolCall (mkFunction "press_buttons" [("button", VStr "a")]))
      (init Demo.replay_world 0%nat [])
    = Returns (mkToolResult "press_buttons" [("button", VStr "a")] (Error msg))
              (init Demo.replay_world 0%nat []).
Proof.
  split; [reflexivity|].
  apply (proj1 (proj2 (@executor_reports_bad_arguments Demo.replay_world
                         (init Demo.replay_world 0%nat []) [("button", VStr "a")]))).
  reflexivity.
Defined.

Lemma tool_calls_suppress_text_fallback_witness :
  message_tool_calls
    (response_message
       (mkResponse (mkMessage "assistant" (Some (PStr "I press A"))
                      (Some [mkToolCall (mkFunction "jump" [])]))))
  = Some [mkToolCall (mkFunction "jump" [])] /\
  buttons_to_press Demo.replay_world "I press A" = ["A"] /\
  trace (final_state
           (_process_response
              (Obj (mkResponse (mkMessage "assistant" (Some (PStr "I press A"))
                                  (Some [mkToolCall (mkFunction "jump" [])]))))
              (init Demo.replay_world 0%nat [])))
  = [HistoryAppend (mkTurn "assistant" (Text "I press A"))].
Proof.
  split; [reflexivity|]. split; [reflexivity|].
  rewrite (@tool_calls_suppress_text_fallback Demo.replay_world
             (init Demo.replay_world 0%nat [])
             (mkResponse (mkMessage "assistant" (Some (PStr "I press A"))
                            (Some [mkToolCall (mkFunction "jump" [])])))
             (mkToolCall (mkFunction "jump" [])) [] eq_refl).
  - reflexivity.
  - constructor; [reflexivity | constructor].
Defined.

Lemma reply_without_action_is_noop_witness :
  tool_requests (Obj (Demo.plain_reply "Let me think...")) = [] /\
  response_content (Obj (Demo.plain_reply "Let me think...")) = PStr "Let me think..." /\
  buttons_to_press Demo.replay_world "Let me think..." = [] /\
  returns (_process_response (Obj (Demo.plain_reply "Let me think..."))
             (init Demo.replay_world 0%nat [])) = true /\
  tool_requests (Obj Demo.none_reply) = [] /\
  response_content (Obj Demo.none_reply) = PNone /\
  returns (_process_response (Obj Demo.none_reply) (init Demo.replay_world 0%nat []))
  = false.
Proof.
  split; [reflexivity|]. split; [reflexivity|]. split; [reflexivity|]. split.
  - rewrite (proj1 (@reply_without_action_is_noop Demo.replay_world
                      (init Demo.replay_world 0%nat []) (Demo.plain_reply "Let me think...")
                      eq_refl) "Let me think..." eq_refl eq_refl).
    reflexivity.
  - split; [reflexivity|]. split; [reflexivity|].
    rewrite (proj2 (@reply_without_action_is_noop Demo.replay_world
                      (init Demo.replay_world 0%nat []) Demo.none_reply eq_refl) eq_refl).
    reflexivity.
Defined.

Lemma text_fallback_fault_propagates_witness :
  tool_requests (Obj (Demo.plain_reply "go up")) = [] /\
  response_content (Obj (Demo.plain_reply "go up")) = PStr "go up" /\
  buttons_to_press Faulty.world "go up" = ["UP"] /\
  emu_press_buttons Faulty.world (VList (map VStr ["UP"])) (VBool true)
    (emulator (init Faulty.world true []))
  = (Err (Exception "ValueError" "Invalid button"), true) /\
  returns (_process_response (Obj (Demo.plain_reply "go up")) (init Faulty.world true []))
  = false.
Proof.
  split; [reflexivity|]. split; [reflexivity|]. split; [reflexivity|].
  split; [reflexivity|].
  rewrite (@text_fallback_fault_propagates Faulty.world (init Faulty.world true [])
             (Demo.plain_reply "go up") "go up" "UP" []
             (Exception "ValueError" "Invalid button") true
             eq_refl eq_refl eq_refl eq_refl).
  reflexivity.
Defined.

Lemma summarize_history_keeps_error_text_witness :
  emu_get_screenshot Demo.offline_world (emulator (init Demo.offline_world 0%nat tt))
  = (Ok tt, 0%nat) /\
  exists st',
    summarize_history (init Demo.offline_world 0%nat tt) = Returns tt st' /\
    message_history st'
    = [summary_turn 10 "Error: Failed to connect to Ollama"
         (get_screenshot_base64 Demo.offline_world tt (Some 2))].
Proof.
  split; [reflexivity|].
  apply (@summarize_history_keeps_error_text Demo.offline_world
           (init Demo.offline_world 0%nat tt) tt 0%nat
           "ConnectionError" "Failed to connect to Ollama");
    [reflexivity | intros msgs; reflexivity].
Defined.

Lemma summarize_history_needs_screenshot_witness :
  emu_get_screenshot Faulty.world (emulator (init Faulty.world false []))
  = (Err (Exception "RuntimeError" "screen unavailable"), false) /\
  message_history (final_state (summarize_history (init Faulty.world false []))) = [] /\
  trace (final_state (summarize_history (init Faulty.world false []))) = [EmuScreenshot].
Proof.
  split; [reflexivity|].
  apply (proj2 (@summarize_history_needs_screenshot Faulty.world
                  (init Faulty.world false [])
                  (Exception "RuntimeError" "screen unavailable") false eq_refl)).
Defined.

Lemma get_next_action_raise_witness :
  _get_next_action (init Faulty.world false [])
  = Raises (Exception "RuntimeError" "screen unavailable")
      (final_state (_get_next_action (init Faulty.world false []))) /\
  (message_history (final_state (_get_next_action (init Faulty.world false [])))
   = message_history (init Faulty.world false []) \/
   (Exception "RuntimeError" "screen unavailable" = KeyboardInterrupt /\
    exists t, turn_role t = "user" /\
              message_history (final_state (_get_next_action (init Faulty.world false [])))
              = (message_history (init Faulty.world false []) ++ [t])%list)).
Proof.
  assert (H : _get_next_action (init Faulty.world false [])
              = Raises (Exception "RuntimeError" "screen unavailable")
                  (final_state (_get_next_action (init Faulty.world false []))))
    by reflexivity.
  split; [exact H|].
  apply (get_next_action_raise _ H).
Defined.
